(** * golog: a terminal text viewer (main.go)

    Shallow embedding of the viewport/cursor engine of [main.go] and the
    properties its specification states about it.

    Modelling conventions
    - Go's [int] is the 64-bit two's-complement integer: a value is a [Z]
      in [[min_int, max_int]] and every [+], [-] of the source is written
      with [GoInt.add], [GoInt.sub], which wrap around.
    - A Go [string] is a sequence of bytes: Rocq's [string]; [len] counts
      bytes.
    - An index or slice expression that Go's runtime rejects (a panic) is
      [None]; code that can panic lives in the [option] monad.
    - [*appState] is threaded explicitly: a function that receives the
      pointer returns the state it leaves behind.
    - [moveVertical], [moveHorizontal], [pageDown] and [pageUp] are never
      called and are left out. *)

From Stdlib Require Import ZArith List String Ascii Bool Lia.
From Stdlib Require DecimalString.
Import ListNotations.
Local Open Scope Z_scope.

(** ** Go's [int] *)

Module GoInt.

Definition min_int : Z := - 2 ^ 63.
Definition max_int : Z := 2 ^ 63 - 1.

(** Reduction of an ideal integer to its 64-bit representative. *)
Definition wrap (z : Z) : Z := (z + 2 ^ 63) mod 2 ^ 64 - 2 ^ 63.

Definition add (a b : Z) : Z := wrap (a + b).
Definition sub (a b : Z) : Z := wrap (a - b).

(** Go's [/] truncates toward zero. *)
Definition quot (a b : Z) : Z := wrap (Z.quot a b).

(** [z] is a value of type [int]. *)
Definition is_int (z : Z) : Prop := min_int <= z <= max_int.

End GoInt.

Import GoInt.

(** ** Strings and slices *)

Definition len (s : string) : Z := Z.of_nat (String.length s).

Definition llen {A : Type} (l : list A) : Z := Z.of_nat (List.length l).

(** [l[i]]: panics unless [0 <= i < len(l)]. *)
Definition index {A : Type} (l : list A) (i : Z) : option A :=
  if (0 <=? i) && (i <? llen l) then nth_error l (Z.to_nat i) else None.

(** [s[a:b]]: panics unless [0 <= a <= b <= len(s)]. *)
Definition slice (s : string) (a b : Z) : option string :=
  if (0 <=? a) && (a <=? b) && (b <=? len s)
  then Some (String.substring (Z.to_nat a) (Z.to_nat (b - a)) s)
  else None.

Definition newline : ascii := ascii_of_nat 10.

(** [strings.Split(s, "\n")]: the pieces of [s] between consecutive
    separators; [acc] is the piece read so far. *)
Fixpoint split_from (acc : string) (s : string) : list string :=
  match s with
  | EmptyString => [acc]
  | String c rest =>
      if Ascii.eqb c newline
      then acc :: split_from EmptyString rest
      else split_from (acc ++ String c EmptyString) rest
  end.

Definition split_lines (content : string) : list string :=
  split_from EmptyString content.

(** ** The option monad for panicking code *)

Definition bind {A B : Type} (m : option A) (k : A -> option B) : option B :=
  match m with
  | Some a => k a
  | None => None
  end.

Notation "x <- m ;; k" := (bind m (fun x => k))
  (at level 61, m at next level, right associativity).

(** ** [appState] *)

Record appState : Type := mkState {
  lines : list string;
  filename : string;
  startLine : Z;
  startCol : Z;
  currentLine : Z;
  currentCol : Z;
  screenWidth : Z;
  screenHeight : Z;
  lastGPress : bool
}.

Definition set_startLine (v : Z) (s : appState) : appState :=
  mkState (lines s) (filename s) v (startCol s) (currentLine s)
          (currentCol s) (screenWidth s) (screenHeight s) (lastGPress s).

Definition set_currentLine (v : Z) (s : appState) : appState :=
  mkState (lines s) (filename s) (startLine s) (startCol s) v
          (currentCol s) (screenWidth s) (screenHeight s) (lastGPress s).

Definition set_currentCol (v : Z) (s : appState) : appState :=
  mkState (lines s) (filename s) (startLine s) (startCol s) (currentLine s)
          v (screenWidth s) (screenHeight s) (lastGPress s).

Definition set_screenWidth (v : Z) (s : appState) : appState :=
  mkState (lines s) (filename s) (startLine s) (startCol s) (currentLine s)
          (currentCol s) v (screenHeight s) (lastGPress s).

Definition set_screenHeight (v : Z) (s : appState) : appState :=
  mkState (lines s) (filename s) (startLine s) (startCol s) (currentLine s)
          (currentCol s) (screenWidth s) v (lastGPress s).

Definition set_lastGPress (v : bool) (s : appState) : appState :=
  mkState (lines s) (filename s) (startLine s) (startCol s) (currentLine s)
          (currentCol s) (screenWidth s) (screenHeight s) v.

(** [main], lines 35-42: the state built around a document.  The fields
    the composite literal leaves out are Go's zero values. *)
Definition newState (name : string) (doc : list string) : appState :=
  mkState doc name 0 0 0 0 0 0 false.

(** [main], lines 34-42: the state built from the file's content. *)
Definition initialState (name content : string) : appState :=
  newState name (split_lines content).

(** ** The top of the main loop (lines 55-72)

    [w] and [h] are the results of [screen.Size()]. *)
Definition resync (w h : Z) (s : appState) : option appState :=
  let s := set_screenWidth w s in
  let s := set_screenHeight h s in
  let contentHeight := sub h 3 in
  let s := if currentLine s <? startLine s
           then set_startLine (currentLine s) s else s in
  let s := if currentLine s >=? add (startLine s) contentHeight
           then set_startLine (add (sub (currentLine s) contentHeight) 1) s
           else s in
  line <- index (lines s) (currentLine s) ;;
  let currentLineLength := len line in
  let s := if currentCol s >? currentLineLength
           then set_currentCol currentLineLength s else s in
  Some s.

(** ** [moveCursor] (lines 184-201) *)
Definition moveCursor (s : appState) (dy dx : Z) : option appState :=
  let s :=
    if negb (dy =? 0) then
      let newLine := add (currentLine s) dy in
      if (newLine >=? 0) && (newLine <? llen (lines s))
      then set_currentLine newLine s else s
    else s in
  if negb (dx =? 0) then
    line <- index (lines s) (currentLine s) ;;
    let currentLineLength := len line in
    let newCol := add (currentCol s) dx in
    if (newCol >=? 0) && (newCol <=? currentLineLength)
    then Some (set_currentCol newCol s) else Some s
  else Some s.

(** ** Mouse handlers (lines 84-115) *)

(** Wheel up: [ScrollLines(-3)]. *)
Definition wheelUp (s : appState) : appState :=
  let s := set_startLine (sub (startLine s) 3) s in
  if startLine s <? 0 then set_startLine 0 s else s.

(** Wheel down: [ScrollLines(+3)]. *)
Definition wheelDown (contentHeight : Z) (s : appState) : appState :=
  let maxStart := sub (llen (lines s)) contentHeight in
  let maxStart := if maxStart <? 0 then 0 else maxStart in
  let s := set_startLine (add (startLine s) 3) s in
  if startLine s >? maxStart then set_startLine maxStart s else s.

(** Left click at screen cell [(x, y)]: [ClickAt]. *)
Definition clickAt (h x y : Z) (s : appState) : option appState :=
  if (y >=? 1) && (y <? sub h 2) then
    let clickLine := add (startLine s) (sub y 1) in
    if clickLine <? llen (lines s) then
      let s := set_currentLine clickLine s in
      let clickCol := add (startCol s) (sub x 1) in
      line <- index (lines s) clickLine ;;
      let clickCol := if clickCol >? len line then len line else clickCol in
      if clickCol >=? 0 then Some (set_currentCol clickCol s) else Some s
    else Some s
  else Some s.

(** ** Page keys (lines 128-155) *)

(** [Ctrl-B]: [PageScroll(-1)]. *)
Definition pageScrollUp (contentHeight : Z) (s : appState) : appState :=
  let s := set_startLine (sub (startLine s) contentHeight) s in
  if startLine s <? 0 then set_startLine 0 s else s.

(** [Ctrl-F]: [PageScroll(+1)]. *)
Definition pageScrollDown (contentHeight : Z) (s : appState) : appState :=
  let s := set_startLine (add (startLine s) contentHeight) s in
  let maxStart := sub (llen (lines s)) contentHeight in
  let maxStart := if maxStart <? 0 then 0 else maxStart in
  if startLine s >? maxStart then set_startLine maxStart s else s.

(** [Ctrl-D]: half a page down. *)
Definition halfPageDown (contentHeight : Z) (s : appState) : appState :=
  let s := set_startLine (add (startLine s) (quot contentHeight 2)) s in
  let maxStart := sub (llen (lines s)) contentHeight in
  let maxStart := if maxStart <? 0 then 0 else maxStart in
  if startLine s >? maxStart then set_startLine maxStart s else s.

(** [Ctrl-U]: half a page up. *)
Definition halfPageUp (contentHeight : Z) (s : appState) : appState :=
  let s := set_startLine (sub (startLine s) (quot contentHeight 2)) s in
  if startLine s <? 0 then set_startLine 0 s else s.

(** ** Rune keys (lines 168-178) *)

(** ['g']: [ToggleChordOrJumpTop]. *)
Definition toggleChordOrJumpTop (s : appState) : appState :=
  if lastGPress s
  then set_lastGPress false (set_currentLine 0 s)
  else set_lastGPress true s.

(** ['G']: [JumpToBottom]. *)
Definition jumpToBottom (s : appState) : appState :=
  set_lastGPress false (set_currentLine (sub (llen (lines s)) 1) s).

(** ** The screen

    The part of [tcell.Screen] the program uses: a cell buffer, recorded as
    the sequence of [SetContent] calls since the last [Clear] (latest
    first; the style argument is left out), and the cursor, which is either
    shown at a cell or hidden. *)

Record screen : Type := mkScreen {
  cells : list (Z * Z * Z);
  cursor : option (Z * Z)
}.

Definition Clear (scr : screen) : screen := mkScreen [] (cursor scr).

Definition SetContent (x y r : Z) (scr : screen) : screen :=
  mkScreen ((x, y, r) :: cells scr) (cursor scr).

Definition ShowCursor (x y : Z) (scr : screen) : screen :=
  mkScreen (cells scr) (Some (x, y)).

Definition HideCursor (scr : screen) : screen := mkScreen (cells scr) None.

(** ** [range] over a string

    Go's [for i, c := range str] yields the byte offset and the code point
    of every UTF-8 sequence of [str]; a byte that starts no well-formed
    sequence yields [RuneError] and advances by one byte. *)

Definition byteZ (c : ascii) : Z := Z.of_N (N_of_ascii c).

Definition RuneError : Z := 65533.

Definition between (lo hi b : Z) : bool := (lo <=? b) && (b <=? hi).

Definition decodeRune (s : string) : Z * nat :=
  match s with
  | EmptyString => (RuneError, 0%nat)
  | String c0 r0 =>
      let b0 := byteZ c0 in
      if b0 <? 128 then (b0, 1%nat)
      else if between 194 223 b0 then
        match r0 with
        | String c1 _ =>
            let b1 := byteZ c1 in
            if between 128 191 b1
            then (Z.lor (Z.shiftl (Z.land b0 31) 6) (Z.land b1 63), 2%nat)
            else (RuneError, 1%nat)
        | _ => (RuneError, 1%nat)
        end
      else if between 224 239 b0 then
        match r0 with
        | String c1 (String c2 _) =>
            let b1 := byteZ c1 in
            let b2 := byteZ c2 in
            let lo := if b0 =? 224 then 160 else 128 in
            let hi := if b0 =? 237 then 159 else 191 in
            if between lo hi b1 && between 128 191 b2
            then (Z.lor (Z.shiftl (Z.land b0 15) 12)
                    (Z.lor (Z.shiftl (Z.land b1 63) 6) (Z.land b2 63)), 3%nat)
            else (RuneError, 1%nat)
        | _ => (RuneError, 1%nat)
        end
      else if between 240 244 b0 then
        match r0 with
        | String c1 (String c2 (String c3 _)) =>
            let b1 := byteZ c1 in
            let b2 := byteZ c2 in
            let b3 := byteZ c3 in
            let lo := if b0 =? 240 then 144 else 128 in
            let hi := if b0 =? 244 then 143 else 191 in
            if between lo hi b1 && between 128 191 b2 && between 128 191 b3
            then (Z.lor (Z.shiftl (Z.land b0 7) 18)
                    (Z.lor (Z.shiftl (Z.land b1 63) 12)
                       (Z.lor (Z.shiftl (Z.land b2 63) 6) (Z.land b3 63))),
                  4%nat)
            else (RuneError, 1%nat)
        | _ => (RuneError, 1%nat)
        end
      else (RuneError, 1%nat)
  end.

(** [skip] bytes of the sequence decoded last are still to be passed. *)
Fixpoint rangeFrom (i : Z) (skip : nat) (s : string) : list (Z * Z) :=
  match s with
  | EmptyString => []
  | String _ rest =>
      match skip with
      | S k => rangeFrom (i + 1) k rest
      | O =>
          let '(r, width) := decodeRune s in
          (i, r) :: rangeFrom (i + 1) (Nat.pred width) rest
      end
  end.

Definition rangeString (s : string) : list (Z * Z) := rangeFrom 0 0%nat s.

(** ** Drawing (lines 203-278) *)

(** The integers [lo, lo+1, ..., hi-1]: the values a counting [for] loop
    visits. *)
Definition zrange (lo hi : Z) : list Z :=
  map (fun k => lo + Z.of_nat k) (seq 0 (Z.to_nat (hi - lo))).

Definition drawString (scr : screen) (x y : Z) (str : string) : screen :=
  fold_left (fun scr ic => SetContent (add x (fst ic)) y (snd ic) scr)
            (rangeString str) scr.

Definition drawBorder (scr : screen) (w h : Z) : screen :=
  let scr := SetContent 0 0 9484 scr in                    (* '┌' *)
  let scr := SetContent (sub w 1) 0 9488 scr in            (* '┐' *)
  let scr := SetContent 0 (sub h 1) 9492 scr in            (* '└' *)
  let scr := SetContent (sub w 1) (sub h 1) 9496 scr in    (* '┘' *)
  let scr :=
    fold_left (fun scr x =>
                 let scr := SetContent x 0 9472 scr in             (* '─' *)
                 let scr := SetContent x (sub h 2) 9472 scr in
                 SetContent x (sub h 1) 32 scr)
              (zrange 1 (sub w 1)) scr in
  fold_left (fun scr y =>
               let scr := SetContent 0 y 9474 scr in               (* '│' *)
               SetContent (sub w 1) y 9474 scr)
            (zrange 1 (sub h 2)) scr.

(** The content loop of [drawUI] (lines 212-226), started at row [i] with
    [n] rounds left; [Z.to_nat contentHeight] rounds exhaust it. *)
Fixpoint drawRows (n : nat) (i w contentHeight : Z) (s : appState)
    (scr : screen) : option screen :=
  match n with
  | O => Some scr
  | S n' =>
      if i <? contentHeight then
        let lineNum := add (startLine s) i in
        if lineNum >=? llen (lines s) then Some scr
        else
          line <- index (lines s) lineNum ;;
          let start := startCol s in
          let end_ := add start (sub w 2) in
          let end_ := if end_ >? len line then len line else end_ in
          scr <- (if start <? len line
                  then str <- slice line start end_ ;;
                       Some (drawString scr 1 (add 1 i) str)
                  else Some scr) ;;
          drawRows n' (add i 1) w contentHeight s scr
      else Some scr
  end.

(** [%d] of [fmt.Sprintf]. *)
Definition itoa (z : Z) : string :=
  DecimalString.NilZero.string_of_int (Z.to_int z).

Definition statusLine (s : appState) : string :=
  (" " ++ filename s ++ " | Line: " ++ itoa (add (currentLine s) 1)
   ++ "/" ++ itoa (llen (lines s))
   ++ " | Col: " ++ itoa (add (currentCol s) 1) ++ " ")%string.

(** [drawUI] receives the screen and the state pointer and hands both
    back. *)
Definition drawUI (scr : screen) (s : appState) : option (screen * appState) :=
  let scr := Clear scr in
  let w := screenWidth s in
  let h := screenHeight s in
  let scr := drawBorder scr w h in
  let contentHeight := sub h 3 in
  scr <- drawRows (Z.to_nat contentHeight) 0 w contentHeight s scr ;;
  let status := statusLine s in
  status <- (if len status >? sub w 2
             then slice status 0 (sub w 2) else Some status) ;;
  let scr := drawString scr 1 (sub h 2) status in
  let relY := sub (currentLine s) (startLine s) in
  let relX := sub (currentCol s) (startCol s) in
  let scr :=
    if (relY >=? 0) && (relY <? contentHeight)
       && (relX >=? 0) && (relX <? sub w 2)
    then ShowCursor (add relX 1) (add relY 1) scr
    else HideCursor scr in
  Some (scr, s).

(** ** Events and the main loop (lines 53-181) *)

Inductive key : Type :=
| KeyEscape | KeyCtrlC
| KeyDown | KeyUp | KeyRight | KeyLeft
| KeyCtrlB | KeyCtrlF | KeyCtrlD | KeyCtrlU
| KeyRune
| KeyOther.

(** tcell's [ButtonMask] bits. *)
Definition Button1 : Z := 1.
Definition WheelUp : Z := 256.
Definition WheelDown : Z := 512.

Inductive event : Type :=
| EventResize
| EventMouse (x y buttons : Z)
| EventKey (k : key) (r : Z)
| EventOther.

(** What one round of the loop ends in: the next round, [break mainLoop],
    or a run-time panic. *)
Inductive outcome : Type :=
| Continue (s : appState)
| Quit (s : appState)
| Panic.

Definition continue (m : option appState) : outcome :=
  match m with
  | Some s => Continue s
  | None => Panic
  end.

Definition handleRune (r : Z) (s : appState) : outcome :=
  match r with
  | 106 (* 'j' *) => continue (moveCursor s 1 0)
  | 107 (* 'k' *) => continue (moveCursor s (-1) 0)
  | 104 (* 'h' *) => continue (moveCursor s 0 (-1))
  | 108 (* 'l' *) => continue (moveCursor s 0 1)
  | 113 (* 'q' *) => Quit s
  | 103 (* 'g' *) => Continue (toggleChordOrJumpTop s)
  | 71 (* 'G' *) => Continue (jumpToBottom s)
  | _ => Continue s
  end.

Definition handleKey (contentHeight : Z) (k : key) (r : Z) (s : appState)
    : outcome :=
  match k with
  | KeyEscape | KeyCtrlC => Quit s
  | KeyDown => continue (moveCursor s 1 0)
  | KeyUp => continue (moveCursor s (-1) 0)
  | KeyRight => continue (moveCursor s 0 1)
  | KeyLeft => continue (moveCursor s 0 (-1))
  | KeyCtrlB => Continue (pageScrollUp contentHeight s)
  | KeyCtrlF => Continue (pageScrollDown contentHeight s)
  | KeyCtrlD => Continue (halfPageDown contentHeight s)
  | KeyCtrlU => Continue (halfPageUp contentHeight s)
  | KeyRune => handleRune r s
  | KeyOther => Continue s
  end.

Definition handleMouse (h contentHeight x y buttons : Z) (s : appState)
    : outcome :=
  if negb (Z.land buttons WheelUp =? 0) then Continue (wheelUp s)
  else if negb (Z.land buttons WheelDown =? 0)
  then Continue (wheelDown contentHeight s)
  else if negb (Z.land buttons Button1 =? 0) then continue (clickAt h x y s)
  else Continue s.

Definition handleEvent (h contentHeight : Z) (ev : event) (s : appState)
    : outcome :=
  match ev with
  | EventResize => Continue s
  | EventMouse x y buttons => handleMouse h contentHeight x y buttons s
  | EventKey k r => handleKey contentHeight k r s
  | EventOther => Continue s
  end.

(** One round of [mainLoop]: [screen.Size()] returns [(w, h)] and
    [screen.PollEvent()] returns [ev]. *)
Definition iteration (w h : Z) (ev : event) (scr : screen) (s : appState)
    : screen * outcome :=
  match resync w h s with
  | None => (scr, Panic)
  | Some s =>
      let contentHeight := sub h 3 in
      match drawUI scr s with
      | None => (scr, Panic)
      | Some (scr, s) => (scr, handleEvent h contentHeight ev s)
      end
  end.

(** The loop over a finite stream of [(w, h, ev)] triples. *)
Fixpoint run (inputs : list (Z * Z * event)) (scr : screen) (s : appState)
    : screen * outcome :=
  match inputs with
  | [] => (scr, Continue s)
  | (w, h, ev) :: rest =>
      match iteration w h ev scr s with
      | (scr, Continue s) => run rest scr s
      | stop => stop
      end
  end.

Definition blank : screen := mkScreen [] None.

(** ** Vocabulary of the specification *)

Definition clamp (v lo hi : Z) : Z := Z.max lo (Z.min v hi).

(** [contentHeight = screenHeight - 3] and
    [maxStartLine = max(0, len(Document) - contentHeight)], over the ideal
    integers. *)
Definition contentHeight (s : appState) : Z := screenHeight s - 3.

Definition maxStartLine (s : appState) : Z :=
  Z.max 0 (llen (lines s) - contentHeight s).

(** Invariants 1, 2 and 3 of the data model. *)
Definition inv1 (s : appState) : Prop :=
  0 <= currentLine s < llen (lines s).

Definition inv2 (s : appState) : Prop :=
  exists line, index (lines s) (currentLine s) = Some line
               /\ 0 <= currentCol s <= len line.

Definition inv3 (s : appState) : Prop :=
  0 <= startLine s /\ startLine s <= maxStartLine s.

(** Every line has a length that fits in an [int]. *)
Definition lines_fit (s : appState) : Prop :=
  Forall (fun l => len l <= max_int) (lines s).

(** What the Go types guarantee of any state the program can hold: the
    integer fields are [int]s and every length fits in an [int]. *)
Record typed (s : appState) : Prop := mkTyped {
  typed_lines : llen (lines s) <= max_int;
  typed_line : lines_fit s;
  typed_startLine : is_int (startLine s);
  typed_startCol : is_int (startCol s);
  typed_currentLine : is_int (currentLine s);
  typed_currentCol : is_int (currentCol s);
  typed_screenWidth : is_int (screenWidth s);
  typed_screenHeight : is_int (screenHeight s)
}.

(** The line terminator as a string, and [strings.Join(l, "\n")]. *)
Definition nl : string := String newline EmptyString.

Fixpoint join (l : list string) : string :=
  match l with
  | [] => EmptyString
  | [x] => x
  | x :: rest => (x ++ nl ++ join rest)%string
  end.

(** A move is taken when its target lies in [[lo, hi]] and dropped
    otherwise. *)
Definition accept (v lo hi old : Z) : Z :=
  if (lo <=? v) && (v <=? hi) then v else old.

(** The reading of [MoveCursor] as a clamp on both axes. *)
Definition moveCursor_clamps : Prop :=
  forall (s : appState) (dy dx : Z),
    typed s -> inv1 s -> inv2 s -> is_int dy -> is_int dx ->
    exists s',
      moveCursor s dy dx = Some s'
      /\ (dy <> 0 ->
          currentLine s' = clamp (currentLine s + dy) 0 (llen (lines s) - 1))
      /\ (dx <> 0 ->
          exists text,
            index (lines s') (currentLine s') = Some text
            /\ currentCol s' = clamp (currentCol s + dx) 0 (len text)).

(** The state a round leaves behind, when it does not panic. *)
Definition final (o : outcome) : option appState :=
  match o with
  | Continue s | Quit s => Some s
  | Panic => None
  end.

(** Only the viewport row, the cursor and the chord flag differ between
    [s] and [s']. *)
Definition same_frame (s s' : appState) : Prop :=
  lines s' = lines s /\ filename s' = filename s
  /\ startCol s' = startCol s
  /\ screenWidth s' = screenWidth s /\ screenHeight s' = screenHeight s.

(** A screen that does not grow: every height is at least 3 and at most
    the one before it; [H] bounds the first. *)
Fixpoint heights_fall (H : Z) (inputs : list (Z * Z * event)) : Prop :=
  match inputs with
  | [] => True
  | (_, h, _) :: rest => 3 <= h <= H /\ heights_fall h rest
  end.

(** Invariants 1 and 3 against a screen of height [h]. *)
Definition view_ok (h : Z) (s : appState) : Prop :=
  inv1 s /\ 0 <= startLine s <= Z.max 0 (llen (lines s) - (h - 3)).

(** ** Sample states *)

Definition three_lines : appState :=
  mkState ["a"; "b"; "c"]%string "f"%string 0 0 0 0 80 24 false.

Definition hundred_lines : appState :=
  mkState (repeat "x"%string 100) "f"%string 0 0 0 0 80 10 false.

(** A viewport scrolled to line 5, column 2 of a hundred one-letter
    lines. *)
Definition scrolled_view : appState :=
  mkState (repeat "x"%string 100) "f"%string 5 2 0 0 80 10 false.

(** The loop's state on a file of two lines, and on a file of one. *)
Definition two_lines : appState := initialState "f" ("a" ++ nl ++ "b").

Definition one_line : appState := initialState "f" "a".

(** The first frame of a one-line file on a terminal one column wide. *)
Definition one_column : appState :=
  set_screenHeight 24 (set_screenWidth 1 one_line).

(** ** Functions no handler calls (lines 280-315) *)

Definition moveVertical (s : appState) (delta : Z) : option appState :=
  let newLine := add (currentLine s) delta in
  if (newLine >=? 0) && (newLine <? llen (lines s)) then
    let s := set_currentLine newLine s in
    line <- index (lines s) (currentLine s) ;;
    if currentCol s >=? len line then
      let s := set_currentCol (sub (len line) 1) s in
      if currentCol s <? 0 then Some (set_currentCol 0 s) else Some s
    else Some s
  else Some s.

(** [&&] does not evaluate [len(state.lines[state.currentLine])] when
    [newCol < 0]. *)
Definition moveHorizontal (s : appState) (delta : Z) : option appState :=
  let newCol := add (currentCol s) delta in
  if newCol >=? 0 then
    line <- index (lines s) (currentLine s) ;;
    if newCol <? len line then Some (set_currentCol newCol s) else Some s
  else Some s.

Definition pageDown (s : appState) (n : Z) : appState :=
  let newLine := add (currentLine s) n in
  let newLine := if newLine >=? llen (lines s)
                 then sub (llen (lines s)) 1 else newLine in
  set_currentLine newLine s.

Definition pageUp (s : appState) (n : Z) : appState :=
  let newLine := sub (currentLine s) n in
  let newLine := if newLine <? 0 then 0 else newLine in
  set_currentLine newLine s.

(** ** Vocabulary for runs on any screen *)

(** The cursor is on a line and the viewport starts at most four rows past
    the end of the document. *)
Definition cursor_ok (s : appState) : Prop :=
  inv1 s /\ 0 <= startLine s <= llen (lines s) + 4.

(** What the top of the loop leaves on a screen of height [h]. *)
Definition tracked (h : Z) (s : appState) : Prop :=
  inv1 s /\ 0 <= startLine s <= llen (lines s) + 2
  /\ 0 <= startLine s + (h - 3).

(** What every round of the loop keeps. *)
Definition live (s : appState) : Prop :=
  cursor_ok s /\ startCol s = 0
  /\ 0 <= currentCol s /\ is_int (currentCol s) /\ lines_fit s.

(** A screen at least two columns wide and one row high, no higher than
    [H]. *)
Definition screen_fits (H : Z) (input : Z * Z * event) : Prop :=
  2 <= fst (fst input) <= max_int /\ 1 <= snd (fst input) <= H.

(** The cell lies on a screen of [w] columns and [h] rows. *)
Definition in_grid (w h : Z) (cell : Z * Z * Z) : Prop :=
  0 <= fst (fst cell) < w /\ 0 <= snd (fst cell) < h.

(** The cell lies inside the border, above the status row. *)
Definition in_content (w h : Z) (cell : Z * Z * Z) : Prop :=
  1 <= fst (fst cell) <= w - 2 /\ 1 <= snd (fst cell) <= h - 3.

(** The number of line terminators in a string. *)
Fixpoint count_newlines (s : string) : nat :=
  match s with
  | EmptyString => 0%nat
  | String c rest =>
      if Ascii.eqb c newline then S (count_newlines rest)
      else count_newlines rest
  end.

Fixpoint has_newline (s : string) : bool :=
  match s with
  | EmptyString => false
  | String c rest => Ascii.eqb c newline || has_newline rest
  end.

(** The keys that end the loop. *)
Definition is_quit (ev : event) : Prop :=
  (exists r, ev = EventKey KeyEscape r)
  \/ (exists r, ev = EventKey KeyCtrlC r)
  \/ ev = EventKey KeyRune 113.

(** Every byte of the string is below 128. *)
Fixpoint all_ascii (s : string) : bool :=
  match s with
  | EmptyString => true
  | String c rest => (byteZ c <? 128) && all_ascii rest
  end.

(** The bytes of a string with their offsets, counted from [i]. *)
Fixpoint bytes_from (i : Z) (s : string) : list (Z * Z) :=
  match s with
  | EmptyString => []
  | String c rest => (i, byteZ c) :: bytes_from (i + 1) rest
  end.

(** * Properties *)

(** ** Arithmetic of [int] *)

Module GoIntFacts.

Lemma wrap_id (z : Z) : is_int z -> wrap z = z.
Proof.
  unfold is_int, min_int, max_int, wrap. intros Hz.
  rewrite Z.mod_small; lia.
Qed.

Lemma wrap_is_int (z : Z) : is_int (wrap z).
Proof.
  unfold is_int, min_int, max_int, wrap.
  pose proof (Z.mod_pos_bound (z + 2 ^ 63) (2 ^ 64) ltac:(lia)). lia.
Qed.

(** One wrap too high: the sum of two large positive values. *)
Lemma wrap_above (z : Z) :
  max_int < z <= max_int + 2 ^ 64 -> wrap z = z - 2 ^ 64.
Proof.
  unfold max_int, wrap. intros Hz.
  replace (z + 2 ^ 63) with ((z - 2 ^ 64 + 2 ^ 63) + 1 * 2 ^ 64) by lia.
  rewrite Z.mod_add by lia. rewrite Z.mod_small; lia.
Qed.

(** One wrap too low. *)
Lemma wrap_below (z : Z) :
  min_int - 2 ^ 64 <= z < min_int -> wrap z = z + 2 ^ 64.
Proof.
  unfold min_int, wrap. intros Hz.
  replace (z + 2 ^ 63) with ((z + 2 ^ 64 + 2 ^ 63) + (-1) * 2 ^ 64) by lia.
  rewrite Z.mod_add by lia. rewrite Z.mod_small; lia.
Qed.

(** The three ways the sum or difference of two [int]s can come out. *)
Lemma wrap_cases (z : Z) :
  2 * min_int <= z <= 2 * max_int + 1 ->
  (is_int z /\ wrap z = z)
  \/ (max_int < z /\ wrap z = z - 2 ^ 64)
  \/ (z < min_int /\ wrap z = z + 2 ^ 64).
Proof.
  intros Hz.
  destruct (Z_lt_le_dec max_int z) as [Hhi | Hhi].
  - right; left. split; [exact Hhi |].
    apply wrap_above. unfold min_int, max_int in *. lia.
  - destruct (Z_lt_le_dec z min_int) as [Hlo | Hlo].
    + right; right. split; [exact Hlo |].
      apply wrap_below. unfold min_int, max_int in *. lia.
    + left. split; [split; assumption | apply wrap_id; split; assumption].
Qed.

Lemma add_id (a b : Z) : is_int (a + b) -> add a b = a + b.
Proof. apply wrap_id. Qed.

Lemma sub_id (a b : Z) : is_int (a - b) -> sub a b = a - b.
Proof. apply wrap_id. Qed.

Lemma add_is_int (a b : Z) : is_int (add a b).
Proof. apply wrap_is_int. Qed.

Lemma sub_is_int (a b : Z) : is_int (sub a b).
Proof. apply wrap_is_int. Qed.

End GoIntFacts.

Import GoIntFacts.

(** ** Loading: [strings.Split] *)

Lemma split_from_nonempty (acc s : string) : split_from acc s <> [].
Proof.
  revert acc. induction s as [| c rest IH]; intros acc; simpl.
  - discriminate.
  - destruct (Ascii.eqb c newline); [discriminate | apply IH].
Qed.

Lemma append_empty_r (s : string) : (s ++ EmptyString)%string = s.
Proof. induction s as [| c s IH]; simpl; [reflexivity | now rewrite IH]. Qed.

Lemma append_assoc (a b c : string) :
  ((a ++ b) ++ c)%string = (a ++ b ++ c)%string.
Proof. induction a as [| x a IH]; simpl; [reflexivity | now rewrite IH]. Qed.

Lemma join_cons (x : string) (l : list string) :
  l <> [] -> join (x :: l) = (x ++ nl ++ join l)%string.
Proof. destruct l; [contradiction | reflexivity]. Qed.

(** Joining the pieces with the separator gives the content back: nothing
    is dropped and nothing but separators is removed. *)
Lemma join_split_from (acc s : string) :
  join (split_from acc s) = (acc ++ s)%string.
Proof.
  revert acc. induction s as [| c rest IH]; intros acc; simpl.
  - now rewrite append_empty_r.
  - destruct (Ascii.eqb_spec c newline) as [-> | Hc].
    + rewrite join_cons by apply split_from_nonempty.
      rewrite IH. reflexivity.
    + rewrite IH, append_assoc. reflexivity.
Qed.

Lemma join_split_lines (content : string) :
  join (split_lines content) = content.
Proof. apply join_split_from. Qed.

(** C7. Loading splits the raw bytes on the line terminator and treats a
    trailing terminator like any other: ["a\nb\nc"] gives ["a"; "b"; "c"],
    ["a\nb\n"] gives ["a"; "b"] followed by an empty line, the empty file
    gives one empty line,
    and the document of every file has at least one line. *)
Theorem load_split_lines :
  split_lines ("a" ++ nl ++ "b" ++ nl ++ "c") = ["a"; "b"; "c"]%string
  /\ split_lines ("a" ++ nl ++ "b" ++ nl) = ["a"; "b"; EmptyString]%string
  /\ split_lines EmptyString = [EmptyString]
  /\ forall name content : string,
       lines (initialState name content) = split_lines content
       /\ lines (initialState name content) <> []
       /\ 1 <= llen (lines (initialState name content)).
Proof.
  repeat split; try reflexivity.
  - apply split_from_nonempty.
  - simpl. pose proof (split_from_nonempty EmptyString content) as Hne.
    unfold split_lines, llen.
    destruct (split_from EmptyString content); [contradiction | simpl; lia].
Qed.

(** ** Tactics for the comparisons and the arithmetic of the source *)

Ltac bool_cases :=
  repeat match goal with
    | |- context [?a >? ?b] => rewrite (Z.gtb_ltb a b)
    | |- context [?a >=? ?b] => rewrite (Z.geb_leb a b)
    | |- context [(if ?a <? ?b then _ else _) <? _] =>
        destruct (Z.ltb_spec a b)
    | |- context [?a <? ?b] => destruct (Z.ltb_spec a b)
    | |- context [?a <=? ?b] => destruct (Z.leb_spec a b)
    | |- context [?a =? ?b] => destruct (Z.eqb_spec a b)
    end.

Ltac int_bounds := unfold is_int, min_int, max_int in *.

(** ** [moveCursor] *)

(** C9. Boundary no-ops: [moveCursor(state, 1, 0)] on the last line and
    [moveCursor(state, -1, 0)] on the first line leave the whole state
    unchanged. *)
Theorem moveCursor_boundary_noop (s : appState) :
  is_int (currentLine s) ->
  (currentLine s = llen (lines s) - 1 -> moveCursor s 1 0 = Some s)
  /\ (currentLine s = 0 -> moveCursor s (-1) 0 = Some s).
Proof.
  intros Hcl. split; intros Hedge; unfold moveCursor; cbn [Z.eqb negb].
  - unfold add.
    destruct (wrap_cases (currentLine s + 1)) as [[_ ->] | [[_ ->] | [? _]]];
      try (int_bounds; lia);
      bool_cases; simpl; try reflexivity; int_bounds; lia.
  - rewrite Hedge. reflexivity.
Qed.

Lemma moveCursor_boundary_noop_witness :
  moveCursor (set_currentLine 2 three_lines) 1 0
    = Some (set_currentLine 2 three_lines)
  /\ moveCursor three_lines (-1) 0 = Some three_lines.
Proof.
  split.
  - apply (moveCursor_boundary_noop (set_currentLine 2 three_lines)).
    + simpl. int_bounds. lia.
    + reflexivity.
  - apply (moveCursor_boundary_noop three_lines).
    + simpl. int_bounds. lia.
    + reflexivity.
Defined.

(** ** Indexing *)

Lemma index_some {A : Type} (l : list A) (i : Z) :
  0 <= i < llen l -> exists x, index l i = Some x /\ In x l.
Proof.
  intros Hi. unfold index, llen in *.
  destruct (Z.leb_spec 0 i); [| lia].
  destruct (Z.ltb_spec i (Z.of_nat (List.length l))); [| lia]. simpl.
  destruct (nth_error l (Z.to_nat i)) as [x |] eqn:Hnth.
  - exists x. split; [reflexivity | eapply nth_error_In; eassumption].
  - apply nth_error_None in Hnth. lia.
Qed.

Lemma index_in_range {A : Type} (l : list A) (i : Z) (x : A) :
  index l i = Some x -> 0 <= i < llen l /\ In x l.
Proof.
  unfold index. intros Hix.
  destruct (Z.leb_spec 0 i); [| discriminate].
  destruct (Z.ltb_spec i (llen l)); [| discriminate]. simpl in Hix.
  split; [lia | eapply nth_error_In; eassumption].
Qed.

Lemma typed_index (s : appState) (i : Z) (text : string) :
  typed s -> index (lines s) i = Some text -> 0 <= len text <= max_int.
Proof.
  intros Ht Hix. apply index_in_range in Hix as [_ Hin].
  pose proof (typed_line s Ht) as Hall. unfold lines_fit in Hall.
  rewrite Forall_forall in Hall.
  specialize (Hall _ Hin). unfold len in *. lia.
Qed.

Lemma add_cases (a b : Z) :
  is_int a -> is_int b ->
  (is_int (a + b) /\ add a b = a + b)
  \/ (max_int < a + b /\ add a b = a + b - 2 ^ 64)
  \/ (a + b < min_int /\ add a b = a + b + 2 ^ 64).
Proof.
  intros Ha Hb. apply wrap_cases. int_bounds. lia.
Qed.

Lemma sub_cases (a b : Z) :
  is_int a -> is_int b ->
  (is_int (a - b) /\ sub a b = a - b)
  \/ (max_int < a - b /\ sub a b = a - b - 2 ^ 64)
  \/ (a - b < min_int /\ sub a b = a - b + 2 ^ 64).
Proof.
  intros Ha Hb. apply wrap_cases. int_bounds. lia.
Qed.

(** ** [moveCursor], both axes *)

(** On the axis that moves, the wrapped sum passes the range test of the
    source exactly when the ideal sum lies in the range. *)
Lemma accept_add (v d hi : Z) :
  is_int v -> is_int d -> 0 <= v -> hi <= max_int ->
  (if (add v d >=? 0) && (add v d <=? hi) then add v d else v)
  = accept (v + d) 0 hi v.
Proof.
  intros Hv Hd H0 Hhi. unfold accept.
  destruct (add_cases v d Hv Hd) as [[Hr ->] | [[Hr ->] | [Hr ->]]];
    bool_cases; simpl; try reflexivity; int_bounds; lia.
Qed.

(** C3, as the code has it.  [moveCursor] takes a target that lies in the
    document and drops any other: with [dy <> 0] the line becomes
    [currentLine + dy] when that is in [[0, len(lines) - 1]] and is left
    alone otherwise; then, with [dx <> 0], the column becomes
    [currentCol + dx] when that is in [[0, L]], [L] the length of the line
    the cursor is on after the line step, and is left alone otherwise.  For
    a single step along one axis, the only moves the key bindings issue,
    dropping and clamping coincide. *)
Theorem moveCursor_accepts_in_range (s : appState) (dy dx : Z) :
  typed s -> inv1 s -> inv2 s -> is_int dy -> is_int dx ->
  let line' :=
    if dy =? 0 then currentLine s
    else accept (currentLine s + dy) 0 (llen (lines s) - 1) (currentLine s) in
  exists text,
    index (lines s) line' = Some text
    /\ let col' :=
         if dx =? 0 then currentCol s
         else accept (currentCol s + dx) 0 (len text) (currentCol s) in
       moveCursor s dy dx = Some (set_currentCol col' (set_currentLine line' s))
       /\ (dy = 1 \/ dy = -1 ->
           line' = clamp (currentLine s + dy) 0 (llen (lines s) - 1))
       /\ (dx = 1 \/ dx = -1 -> currentCol s <= len text ->
           col' = clamp (currentCol s + dx) 0 (len text))
       /\ (dy = 0 -> currentCol s <= len text).
Proof.
  intros Ht H1 [text0 [Hix0 [Hc0 Hc1]]] Hdy Hdx line'.
  assert (Hline : 0 <= line' < llen (lines s)).
  { subst line'. unfold accept, inv1 in *. bool_cases; simpl; lia. }
  destruct (index_some (lines s) line' Hline) as [text [Hix _]].
  exists text. split; [exact Hix |]. intros col'.
  pose proof (typed_index s line' text Ht Hix) as Hlen.
  pose proof (typed_currentLine s Ht) as Hcl.
  pose proof (typed_currentCol s Ht) as Hcc.
  pose proof (typed_lines s Ht) as Hll.
  split; [| split; [| split]].
  - unfold moveCursor.
    replace (if negb (dy =? 0)
             then if (add (currentLine s) dy >=? 0)
                     && (add (currentLine s) dy <? llen (lines s))
                  then set_currentLine (add (currentLine s) dy) s else s
             else s)
      with (set_currentLine line' s).
    + cbn [set_currentLine lines currentLine currentCol]. rewrite Hix.
      cbn [bind]. subst col'.
      destruct (Z.eqb_spec dx 0) as [Hz | Hz]; cbn [negb].
      * destruct s; reflexivity.
      * rewrite <- (accept_add (currentCol s) dx (len text))
          by (assumption || lia).
        destruct ((add (currentCol s) dx >=? 0)
                  && (add (currentCol s) dx <=? len text));
          destruct s; reflexivity.
    + subst line'.
      destruct (Z.eqb_spec dy 0) as [Hz | Hz]; cbn [negb].
      * destruct s; reflexivity.
      * unfold inv1 in H1.
        rewrite <- (accept_add (currentLine s) dy (llen (lines s) - 1))
          by (assumption || lia).
        replace (add (currentLine s) dy <? llen (lines s))
          with (add (currentLine s) dy <=? llen (lines s) - 1)
          by (bool_cases; lia || reflexivity).
        destruct ((add (currentLine s) dy >=? 0)
                  && (add (currentLine s) dy <=? llen (lines s) - 1));
          destruct s; reflexivity.
  - intros Hstep. subst line'. unfold accept, clamp, inv1 in *.
    destruct Hstep; subst dy; cbn [Z.eqb]; bool_cases; simpl; lia.
  - intros Hstep Hfit. subst col'. unfold accept, clamp.
    destruct Hstep; subst dx; cbn [Z.eqb]; bool_cases; simpl; lia.
  - intros Hstay. subst line'. rewrite Hstay in Hix. cbn [Z.eqb] in Hix.
    rewrite Hix0 in Hix. injection Hix as <-. exact Hc1.
Qed.

Ltac prove_typed :=
  constructor; unfold lines_fit; cbn;
  repeat match goal with
    | |- Forall _ _ => constructor; cbn
    end;
  int_bounds; lia.

Lemma three_lines_typed : typed three_lines.
Proof. prove_typed. Qed.

Lemma three_lines_inv1 : inv1 three_lines.
Proof. unfold inv1. cbn. lia. Qed.

Lemma three_lines_inv2 : inv2 three_lines.
Proof. exists "a"%string. split; [reflexivity | cbn; lia]. Qed.

Lemma moveCursor_accepts_in_range_witness :
  exists text,
    index (lines three_lines) 1 = Some text
    /\ moveCursor three_lines 1 1
       = Some (set_currentCol 1 (set_currentLine 1 three_lines)).
Proof.
  destruct (moveCursor_accepts_in_range three_lines 1 1
              three_lines_typed three_lines_inv1 three_lines_inv2)
    as [text [Hix [Hmove _]]].
  - int_bounds. lia.
  - int_bounds. lia.
  - exists text. split; [exact Hix |].
    cbn in Hix. injection Hix as <-. exact Hmove.
Defined.

(** C3, as the specification words it, fails: on the first of three lines
    [moveCursor(state, 5, 0)] leaves the cursor on line 0, where a clamp of
    [0 + 5] to [[0, 2]] would put it on line 2. *)
Lemma moveCursor_clamp_counterexample :
  typed three_lines /\ inv1 three_lines /\ inv2 three_lines
  /\ moveCursor three_lines 5 0 = Some three_lines
  /\ currentLine three_lines
     <> clamp (currentLine three_lines + 5) 0 (llen (lines three_lines) - 1).
Proof.
  split; [exact three_lines_typed |].
  split; [exact three_lines_inv1 |].
  split; [exact three_lines_inv2 |].
  split; [reflexivity | cbn; discriminate].
Qed.

Lemma moveCursor_clamps_fails : ~ moveCursor_clamps.
Proof.
  intros Hclaim.
  destruct (Hclaim three_lines 5 0 three_lines_typed three_lines_inv1
              three_lines_inv2) as [s' [Hmove [Hline _]]].
  - int_bounds. lia.
  - int_bounds. lia.
  - cbn in Hmove. injection Hmove as <-.
    specialize (Hline ltac:(lia)). cbn in Hline. discriminate.
Qed.

(** ** The chord *)

Lemma moveCursor_lastGPress (s s' : appState) (dy dx : Z) :
  moveCursor s dy dx = Some s' -> lastGPress s' = lastGPress s.
Proof.
  unfold moveCursor. intros Hmove.
  set (s1 := if negb (dy =? 0)
             then if (add (currentLine s) dy >=? 0)
                     && (add (currentLine s) dy <? llen (lines s))
                  then set_currentLine (add (currentLine s) dy) s else s
             else s) in *.
  assert (H1 : lastGPress s1 = lastGPress s).
  { subst s1. destruct (negb (dy =? 0)); [| reflexivity].
    destruct ((add (currentLine s) dy >=? 0)
              && (add (currentLine s) dy <? llen (lines s))); reflexivity. }
  destruct (negb (dx =? 0)).
  - destruct (index (lines s1) (currentLine s1)) as [text |];
      cbn [bind] in Hmove; [| discriminate].
    destruct ((add (currentCol s1) dx >=? 0)
              && (add (currentCol s1) dx <=? len text));
      injection Hmove as <-; exact H1.
  - injection Hmove as <-. exact H1.
Qed.

(** C4. The two-press chord.  ['g'] with the flag down raises the flag and
    changes nothing else; ['g'] with the flag up puts the cursor on line 0
    and lowers the flag; [moveCursor] never touches the flag, so ['g'],
    arrow-down, ['g'] ends on line 0 with the flag down. *)
Theorem chord_gesture :
  (forall s, lastGPress s = false ->
             toggleChordOrJumpTop s = set_lastGPress true s)
  /\ (forall s, lastGPress s = true ->
                toggleChordOrJumpTop s
                = set_lastGPress false (set_currentLine 0 s))
  /\ (forall s s' dy dx, moveCursor s dy dx = Some s' ->
                         lastGPress s' = lastGPress s)
  /\ (forall s ch, lastGPress s = false ->
        exists s1 s2 s3,
          handleKey ch KeyRune 103 s = Continue s1
          /\ handleKey ch KeyDown 0 s1 = Continue s2
          /\ handleKey ch KeyRune 103 s2 = Continue s3
          /\ currentLine s1 = currentLine s
          /\ lastGPress s1 = true /\ lastGPress s2 = true
          /\ currentLine s3 = 0 /\ lastGPress s3 = false).
Proof.
  split; [| split; [| split]].
  - intros s Hflag. unfold toggleChordOrJumpTop. now rewrite Hflag.
  - intros s Hflag. unfold toggleChordOrJumpTop. now rewrite Hflag.
  - intros s s' dy dx. apply moveCursor_lastGPress.
  - intros s ch Hflag.
    assert (Hdown : exists s2, moveCursor (toggleChordOrJumpTop s) 1 0
                               = Some s2).
    { unfold moveCursor. cbn [Z.eqb negb]. eexists. reflexivity. }
    destruct Hdown as [s2 Hdown].
    exists (toggleChordOrJumpTop s), s2, (toggleChordOrJumpTop s2).
    pose proof (moveCursor_lastGPress _ _ _ _ Hdown) as Hkeep.
    assert (Hup : lastGPress (toggleChordOrJumpTop s) = true).
    { unfold toggleChordOrJumpTop. now rewrite Hflag. }
    rewrite Hup in Hkeep.
    cbn [handleKey handleRune]. rewrite Hdown. cbn [continue].
    repeat split; try assumption.
    + unfold toggleChordOrJumpTop. now rewrite Hflag.
    + unfold toggleChordOrJumpTop. now rewrite Hkeep.
    + unfold toggleChordOrJumpTop. now rewrite Hkeep.
Qed.

Lemma chord_gesture_witness :
  toggleChordOrJumpTop three_lines = set_lastGPress true three_lines
  /\ toggleChordOrJumpTop (set_lastGPress true (set_currentLine 2 three_lines))
     = set_lastGPress false
         (set_currentLine 0 (set_lastGPress true (set_currentLine 2 three_lines)))
  /\ exists s1 s2 s3,
       handleKey 21 KeyRune 103 (set_currentLine 1 three_lines) = Continue s1
       /\ handleKey 21 KeyDown 0 s1 = Continue s2
       /\ handleKey 21 KeyRune 103 s2 = Continue s3
       /\ currentLine s3 = 0 /\ lastGPress s3 = false.
Proof.
  destruct chord_gesture as [Hfirst [Hsecond [_ Hseq]]].
  split; [apply Hfirst; reflexivity |].
  split; [apply Hsecond; reflexivity |].
  destruct (Hseq (set_currentLine 1 three_lines) 21 eq_refl)
    as [s1 [s2 [s3 [H1 [H2 [H3 [_ [_ [_ [Hline Hflag]]]]]]]]]].
  exists s1, s2, s3. repeat split; assumption.
Defined.

(** The same three keys through the whole loop, on the second of three
    lines. *)
Example chord_through_the_loop :
  snd (run [(80, 24, EventKey KeyRune 103);
            (80, 24, EventKey KeyDown 0);
            (80, 24, EventKey KeyRune 103)]
           blank (set_currentLine 1 three_lines))
  = Continue (set_currentLine 0 three_lines).
Proof. vm_compute. reflexivity. Qed.

(** ** Page scrolling *)

(** The bound the source computes is never above the ideal
    [max(0, len(lines) - contentHeight)]. *)
Lemma maxStart_le (h : Z) (l : list string) :
  is_int h -> llen l <= max_int ->
  let maxStart := sub (llen l) (sub h 3) in
  0 <= (if maxStart <? 0 then 0 else maxStart)
       <= Z.max 0 (llen l - (h - 3)).
Proof.
  intros Hh Hl. cbn zeta.
  assert (H3 : is_int 3) by (int_bounds; lia).
  assert (H0 : 0 <= llen l) by (unfold llen; lia).
  assert (Hll : is_int (llen l)) by (int_bounds; lia).
  destruct (sub_cases h 3 Hh H3) as [[Hr Hch] | [[Hr Hch] | [Hr Hch]]];
    rewrite Hch.
  - destruct (sub_cases (llen l) (h - 3) Hll Hr) as [[? ->] | [[? ->] | [? ->]]];
      bool_cases; int_bounds; lia.
  - int_bounds; lia.
  - pose proof (sub_is_int (llen l) (h - 3 + 2 ^ 64)) as Hm.
    bool_cases; int_bounds; lia.
Qed.

Lemma pageScrollDown_startLine_le (h : Z) (s : appState) :
  is_int h -> llen (lines s) <= max_int ->
  startLine (pageScrollDown (sub h 3) s)
  <= Z.max 0 (llen (lines s) - (h - 3)).
Proof.
  intros Hh Hl. pose proof (maxStart_le h (lines s) Hh Hl) as Hm.
  cbn zeta in Hm. unfold pageScrollDown.
  cbn [set_startLine startLine lines].
  destruct (sub (llen (lines s)) (sub h 3) <? 0);
    bool_cases; cbn [set_startLine startLine]; lia.
Qed.

Lemma pageScrollUp_startLine_ge (ch : Z) (s : appState) :
  0 <= startLine (pageScrollUp ch s).
Proof.
  unfold pageScrollUp. cbn [set_startLine startLine].
  bool_cases; cbn [set_startLine startLine]; lia.
Qed.

(** What a page scroll leaves alone: everything but [startLine]. *)
Lemma pageScrollDown_frame (ch : Z) (s : appState) :
  pageScrollDown ch s = set_startLine (startLine (pageScrollDown ch s)) s.
Proof.
  unfold pageScrollDown. cbn [set_startLine startLine lines].
  destruct (_ >? _); destruct s; reflexivity.
Qed.

Lemma pageScrollUp_frame (ch : Z) (s : appState) :
  pageScrollUp ch s = set_startLine (startLine (pageScrollUp ch s)) s.
Proof.
  unfold pageScrollUp. cbn [set_startLine startLine].
  destruct (_ <? _); destruct s; reflexivity.
Qed.

Lemma iter_frame (f : appState -> appState) (n : nat) (s : appState) :
  (forall t, f t = set_startLine (startLine (f t)) t) ->
  Nat.iter n f s = set_startLine (startLine (Nat.iter n f s)) s.
Proof.
  intros Hf. induction n as [| n IH].
  - destruct s; reflexivity.
  - rewrite Nat.iter_succ. set (t := Nat.iter n f s) in *.
    pose proof (Hf t) as Hstep.
    remember (startLine (f t)) as v eqn:Hv. rewrite Hstep, IH.
    destruct s; reflexivity.
Qed.

(** C8. From a state with [0 <= startLine <= maxStartLine], any number of
    [Ctrl-F] presses keeps [startLine] at or below [maxStartLine], any
    number of [Ctrl-B] presses keeps it at or above 0, and neither key
    changes [currentLine] or [currentCol]. *)
Theorem pageScroll_bounds (s : appState) (n : nat) :
  typed s -> inv3 s ->
  let down := Nat.iter n (pageScrollDown (sub (screenHeight s) 3)) s in
  let up := Nat.iter n (pageScrollUp (sub (screenHeight s) 3)) s in
  startLine down <= maxStartLine s
  /\ 0 <= startLine up
  /\ currentLine down = currentLine s /\ currentCol down = currentCol s
  /\ currentLine up = currentLine s /\ currentCol up = currentCol s.
Proof.
  intros Ht [H0 Hmax] down up.
  pose proof (iter_frame _ n s (pageScrollDown_frame (sub (screenHeight s) 3)))
    as Hdown.
  pose proof (iter_frame _ n s (pageScrollUp_frame (sub (screenHeight s) 3)))
    as Hup.
  fold down in Hdown. fold up in Hup.
  split; [| split].
  - subst down. destruct n as [| n]; [exact Hmax |].
    rewrite Nat.iter_succ.
    set (t := Nat.iter n (pageScrollDown (sub (screenHeight s) 3)) s) in *.
    assert (Hlines : lines t = lines s).
    { subst t. rewrite (iter_frame _ n s
                          (pageScrollDown_frame (sub (screenHeight s) 3))).
      reflexivity. }
    pose proof (pageScrollDown_startLine_le (screenHeight s) t
                  (typed_screenHeight s Ht)) as Hle.
    rewrite Hlines in Hle. apply Hle. exact (typed_lines s Ht).
  - subst up. destruct n as [| n]; [exact H0 |].
    rewrite Nat.iter_succ. apply pageScrollUp_startLine_ge.
  - rewrite Hdown, Hup. repeat split; reflexivity.
Qed.

Lemma repeat_typed (c f : string) (n : nat) (sl sc cl cc w h : Z) (g : bool) :
  len c <= max_int -> Z.of_nat n <= max_int ->
  is_int sl -> is_int sc -> is_int cl -> is_int cc -> is_int w -> is_int h ->
  typed (mkState (repeat c n) f sl sc cl cc w h g).
Proof.
  intros Hc Hn Hsl Hsc Hcl Hcc Hw Hh. constructor; try assumption.
  - unfold llen. cbn [lines]. rewrite repeat_length. exact Hn.
  - unfold lines_fit. cbn [lines].
    apply Forall_forall. intros x Hin. apply repeat_spec in Hin. subst x.
    exact Hc.
Qed.

Lemma hundred_lines_typed (sl cl : Z) :
  is_int sl -> is_int cl ->
  typed (set_startLine sl (set_currentLine cl hundred_lines)).
Proof.
  intros Hsl Hcl. apply repeat_typed; try assumption;
    cbn; int_bounds; lia.
Qed.

Lemma pageScroll_bounds_witness :
  startLine (Nat.iter 20 (pageScrollDown (sub 10 3)) hundred_lines)
  <= maxStartLine hundred_lines
  /\ 0 <= startLine (Nat.iter 20 (pageScrollUp (sub 10 3)) hundred_lines).
Proof.
  assert (Ht : typed hundred_lines).
  { apply (hundred_lines_typed 0 0); int_bounds; lia. }
  assert (H3 : inv3 hundred_lines).
  { unfold inv3, maxStartLine, contentHeight, llen. cbn. lia. }
  pose proof (pageScroll_bounds hundred_lines 20 Ht H3) as [Hdown [Hup _]].
  split; [exact Hdown | exact Hup].
Defined.

(** ** The top of the loop *)

(** [resync] in one piece: the two viewport adjustments in sequence, then
    the column bound. *)
Lemma resync_eq (w h : Z) (s : appState) :
  resync w h s
  = let ch := sub h 3 in
    let sl1 := if currentLine s <? startLine s
               then currentLine s else startLine s in
    let sl2 := if currentLine s >=? add sl1 ch
               then add (sub (currentLine s) ch) 1 else sl1 in
    text <- index (lines s) (currentLine s) ;;
    Some (mkState (lines s) (filename s) sl2 (startCol s) (currentLine s)
                  (if currentCol s >? len text then len text
                   else currentCol s)
                  w h (lastGPress s)).
Proof.
  destruct s as [l f sl sc cl cc sw sh g]. unfold resync.
  cbn [set_screenWidth set_screenHeight set_startLine set_currentCol
       lines filename startLine startCol currentLine currentCol
       screenWidth screenHeight lastGPress].
  destruct (cl <? sl);
    cbn [set_screenWidth set_screenHeight set_startLine set_currentCol
         lines filename startLine startCol currentLine currentCol
         screenWidth screenHeight lastGPress];
    destruct (cl >=? add _ (sub h 3));
    cbn [set_screenWidth set_screenHeight set_startLine set_currentCol
         lines filename startLine startCol currentLine currentCol
         screenWidth screenHeight lastGPress];
    destruct (index l cl) as [text |]; cbn [bind]; try reflexivity;
    destruct (cc >? len text); reflexivity.
Qed.

(** C2. With a content region of positive height and the cursor on a line
    of the document, the top of the loop moves [startLine] by the least
    amount that brings the cursor into view: to [currentLine] when the
    cursor is above the viewport, to [currentLine - contentHeight + 1] when
    it is at or below the bottom edge, not at all otherwise; it then bounds
    [currentCol] by the length of the cursor's line.  The viewport's bottom
    edge [startLine + contentHeight] is taken to be a representable [int].
    With [screenHeight = 10] and 100 lines, a cursor on line 50 over
    [startLine = 0] gives [startLine = 44], and a cursor on line 0 over
    [startLine = 44] gives [startLine = 0]. *)
Theorem resync_tracks_cursor (w h : Z) (s : appState) :
  typed s -> is_int h -> h - 3 > 0 -> inv1 s -> 0 <= currentCol s ->
  startLine s + (h - 3) <= max_int ->
  let ch := h - 3 in
  let sl' :=
    if currentLine s <? startLine s then currentLine s
    else if currentLine s >=? startLine s + ch then currentLine s - ch + 1
         else startLine s in
  exists text,
    index (lines s) (currentLine s) = Some text
    /\ resync w h s
       = Some (mkState (lines s) (filename s) sl' (startCol s)
                       (currentLine s) (clamp (currentCol s) 0 (len text))
                       w h (lastGPress s))
    /\ sl' <= currentLine s < sl' + ch
    /\ (forall t, t <= currentLine s < t + ch ->
                  Z.abs (sl' - startLine s) <= Z.abs (t - startLine s))
    /\ (h = 10 -> llen (lines s) = 100 ->
        startLine s = 0 -> currentLine s = 50 -> sl' = 44)
    /\ (h = 10 -> llen (lines s) = 100 ->
        startLine s = 44 -> currentLine s = 0 -> sl' = 0).
Proof.
  intros Ht Hh Hch H1 Hcc Hfit ch sl'.
  destruct (index_some (lines s) (currentLine s) H1) as [text [Hix _]].
  pose proof (typed_index s _ _ Ht Hix) as Hlen.
  pose proof (typed_startLine s Ht) as Hsl.
  pose proof (typed_currentLine s Ht) as Hcl.
  unfold inv1 in H1.
  exists text. split; [exact Hix |]. split; [| split; [| split; [| split]]].
  - rewrite resync_eq. cbn zeta. rewrite Hix. cbn [bind].
    rewrite (sub_id h 3) by (int_bounds; lia). fold ch.
    f_equal. f_equal.
    + subst sl'.
      destruct (Z.ltb_spec (currentLine s) (startLine s)) as [Hup | Hup].
      * rewrite add_id by (int_bounds; lia).
        bool_cases; try reflexivity; lia.
      * rewrite add_id by (int_bounds; lia).
        rewrite Z.geb_leb.
        destruct (Z.leb_spec (startLine s + ch) (currentLine s));
          [| reflexivity].
        rewrite (sub_id (currentLine s) ch) by (int_bounds; lia).
        rewrite add_id by (int_bounds; lia). reflexivity.
    + unfold clamp. bool_cases; lia.
  - subst sl'. bool_cases; lia.
  - intros t Hvis. subst sl'. bool_cases; lia.
  - intros -> _ H0 H50. subst sl' ch. rewrite H0, H50. reflexivity.
  - intros -> _ H44 H0. subst sl' ch. rewrite H44, H0. reflexivity.
Qed.

Lemma resync_tracks_cursor_witness :
  resync 80 10 (set_startLine 0 (set_currentLine 50 hundred_lines))
  = Some (set_startLine 44 (set_currentLine 50 hundred_lines))
  /\ resync 80 10 (set_startLine 44 (set_currentLine 0 hundred_lines))
     = Some (set_startLine 0 (set_currentLine 0 hundred_lines)).
Proof.
  split.
  - destruct (resync_tracks_cursor 80 10
                (set_startLine 0 (set_currentLine 50 hundred_lines)))
      as [text [Hix [Hre _]]].
    + apply hundred_lines_typed; int_bounds; lia.
    + int_bounds. lia.
    + lia.
    + unfold inv1, llen. cbn. lia.
    + cbn. lia.
    + cbn. int_bounds. lia.
    + cbn in Hix. injection Hix as <-. exact Hre.
  - destruct (resync_tracks_cursor 80 10
                (set_startLine 44 (set_currentLine 0 hundred_lines)))
      as [text [Hix [Hre _]]].
    + apply hundred_lines_typed; int_bounds; lia.
    + int_bounds. lia.
    + lia.
    + unfold inv1, llen. cbn. lia.
    + cbn. lia.
    + cbn. int_bounds. lia.
    + cbn in Hix. injection Hix as <-. exact Hre.
Defined.

(** ** Mouse clicks *)

(** C5. A left click at screen cell [(x, y)] changes nothing when row
    [y - 1] lies outside [[0, h - 3)] or when [startLine + (y - 1)] is at
    or past the end of the document.  Otherwise the cursor goes to line
    [startLine + (y - 1)], and to column
    [min(startCol + (x - 1), len(line))] when [startCol + (x - 1) >= 0]; a
    negative column leaves [currentCol] as it was.  The state is one of the
    data model ([0 <= startLine], [0 < h]) and the cell coordinates are
    representable.  With [startLine = 5], [startCol = 2] and a region of
    height at least 3, the click [(4, 3)] puts the cursor on line 7,
    column [clamp(5, 0, len(lines[7]))]. *)
Theorem clickAt_maps_cell (h x y : Z) (s : appState) :
  typed s -> is_int h -> is_int x -> is_int y ->
  0 < h -> 0 <= startLine s -> startLine s + (h - 3) <= max_int ->
  is_int (x - 1) -> is_int (startCol s + (x - 1)) ->
  let line := startLine s + (y - 1) in
  let raw := startCol s + (x - 1) in
  (~ 0 <= y - 1 < h - 3 \/ llen (lines s) <= line -> clickAt h x y s = Some s)
  /\ (0 <= y - 1 < h - 3 -> line < llen (lines s) ->
      exists text,
        index (lines s) line = Some text
        /\ clickAt h x y s
           = Some (if 0 <=? raw
                   then set_currentCol (Z.min raw (len text))
                          (set_currentLine line s)
                   else set_currentLine line s))
  /\ (startLine s = 5 -> startCol s = 2 -> x = 4 -> y = 3 -> 3 <= h - 3 ->
      7 < llen (lines s) ->
      exists text,
        index (lines s) 7 = Some text
        /\ clickAt h x y s
           = Some (set_currentCol (clamp 5 0 (len text))
                     (set_currentLine 7 s))).
Proof.
  intros Ht Hh Hx Hy Hpos Hsl Hfit Hx1 Hraw line raw.
  pose proof (typed_startLine s Ht) as Hsl'.
  assert (Hsub2 : sub h 2 = h - 2) by (apply sub_id; int_bounds; lia).
  assert (Hin : 0 <= y - 1 < h - 3 -> line < llen (lines s) ->
                exists text,
                  index (lines s) line = Some text
                  /\ clickAt h x y s
                     = Some (if 0 <=? raw
                             then set_currentCol (Z.min raw (len text))
                                    (set_currentLine line s)
                             else set_currentLine line s)).
  { intros Hrow Hdoc.
    assert (Hline : 0 <= line < llen (lines s)) by (subst line; lia).
    destruct (index_some (lines s) line Hline) as [text [Hix _]].
    pose proof (typed_index s _ _ Ht Hix) as Hlen.
    exists text. split; [exact Hix |].
    unfold clickAt. rewrite Hsub2.
    rewrite (sub_id y 1) by (int_bounds; lia).
    rewrite (sub_id x 1) by exact Hx1.
    rewrite (add_id (startLine s)) by (int_bounds; lia).
    fold line.
    cbn [set_currentLine lines startCol].
    rewrite (add_id (startCol s)) by exact Hraw. fold raw.
    rewrite Hix. cbn [bind].
    destruct (Z.leb_spec 1 y) as [_ | ?]; [| lia].
    rewrite Z.geb_leb. destruct (Z.leb_spec 1 y) as [_ | ?]; [| lia].
    destruct (Z.ltb_spec y (h - 2)) as [_ | ?]; [| lia].
    destruct (Z.ltb_spec line (llen (lines s))) as [_ | ?]; [| lia].
    cbn [andb]. rewrite Z.gtb_ltb.
    destruct (Z.ltb_spec (len text) raw) as [Hlong | Hshort].
    - rewrite Z.geb_leb.
      destruct (Z.leb_spec 0 (len text)) as [_ | ?]; [| lia].
      destruct (Z.leb_spec 0 raw) as [_ | ?]; [| lia].
      rewrite Z.min_r by lia. reflexivity.
    - rewrite Z.geb_leb. rewrite Z.min_l by lia.
      destruct (0 <=? raw); reflexivity. }
  split; [| split].
  - intros Hout. unfold clickAt. rewrite Hsub2.
    rewrite Z.geb_leb.
    destruct (Z.leb_spec 1 y) as [Hy1 | ?]; [| reflexivity].
    destruct (Z.ltb_spec y (h - 2)) as [Hy2 | ?]; [| reflexivity].
    cbn [andb].
    rewrite (sub_id y 1) by (int_bounds; lia).
    rewrite (add_id (startLine s)) by (int_bounds; lia).
    fold line.
    destruct (Z.ltb_spec line (llen (lines s))) as [Hdoc | ?];
      [| reflexivity].
    destruct Hout as [Hrow | Hpast]; lia.
  - exact Hin.
  - intros H5 H2 -> -> Hheight Hdoc.
    subst line raw. rewrite H5, H2 in Hin.
    destruct Hin as [text [Hix Hclick]]; [lia | lia |].
    exists text. split; [exact Hix |].
    pose proof (typed_index s _ _ Ht Hix) as Hlen.
    rewrite Hclick. cbn [Z.leb Z.add Z.sub Z.compare Z.opp Z.pos_sub
                         Pos.add Pos.succ Pos.pred_double Pos.compare
                         Pos.compare_cont].
    unfold clamp. rewrite Z.max_r by lia. reflexivity.
Qed.

Lemma clickAt_maps_cell_witness :
  clickAt 10 4 3 scrolled_view
  = Some (set_currentCol 1 (set_currentLine 7 scrolled_view)).
Proof.
  assert (Ht : typed scrolled_view)
    by (apply repeat_typed; cbn; int_bounds; lia).
  assert (Hi : forall z, -100 <= z <= 100 -> is_int z)
    by (intros z Hz; int_bounds; lia).
  destruct (clickAt_maps_cell 10 4 3 scrolled_view Ht
              (Hi 10 ltac:(lia)) (Hi 4 ltac:(lia)) (Hi 3 ltac:(lia))
              ltac:(lia) ltac:(cbn; lia) ltac:(cbn; int_bounds; lia)
              (Hi (4 - 1) ltac:(lia)) (Hi (2 + (4 - 1)) ltac:(lia)))
    as [_ [_ Hclick]].
  specialize (Hclick eq_refl eq_refl eq_refl eq_refl
                ltac:(lia) ltac:(unfold llen; cbn; lia)).
  destruct Hclick as [text [Hix Hclick]].
  cbn in Hix. injection Hix as <-. exact Hclick.
Defined.

(** ** What the handlers leave alone *)

Lemma same_frame_refl (s : appState) : same_frame s s.
Proof. repeat split. Qed.

Lemma same_frame_trans (s t u : appState) :
  same_frame s t -> same_frame t u -> same_frame s u.
Proof.
  unfold same_frame. intros [? [? [? [? ?]]]] [? [? [? [? ?]]]].
  repeat split; congruence.
Qed.

Ltac frame_cases :=
  unfold same_frame; cbv zeta;
  repeat match goal with
    | |- context [if ?b then _ else _] => destruct b
    end;
  repeat split; reflexivity.

Lemma set_currentLine_frame (v : Z) (s : appState) :
  same_frame s (set_currentLine v s).
Proof. frame_cases. Qed.

Lemma set_currentCol_frame (v : Z) (s : appState) :
  same_frame s (set_currentCol v s).
Proof. frame_cases. Qed.

Lemma wheelUp_frame (s : appState) : same_frame s (wheelUp s).
Proof. unfold wheelUp. frame_cases. Qed.

Lemma wheelDown_frame (ch : Z) (s : appState) :
  same_frame s (wheelDown ch s).
Proof. unfold wheelDown. frame_cases. Qed.

Lemma pageScrollUp_same_frame (ch : Z) (s : appState) :
  same_frame s (pageScrollUp ch s).
Proof. unfold pageScrollUp. frame_cases. Qed.

Lemma pageScrollDown_same_frame (ch : Z) (s : appState) :
  same_frame s (pageScrollDown ch s).
Proof. unfold pageScrollDown. frame_cases. Qed.

Lemma halfPageUp_frame (ch : Z) (s : appState) :
  same_frame s (halfPageUp ch s).
Proof. unfold halfPageUp. frame_cases. Qed.

Lemma halfPageDown_frame (ch : Z) (s : appState) :
  same_frame s (halfPageDown ch s).
Proof. unfold halfPageDown. frame_cases. Qed.

Lemma toggleChordOrJumpTop_frame (s : appState) :
  same_frame s (toggleChordOrJumpTop s).
Proof. unfold toggleChordOrJumpTop. frame_cases. Qed.

Lemma jumpToBottom_frame (s : appState) : same_frame s (jumpToBottom s).
Proof. unfold jumpToBottom. frame_cases. Qed.

Lemma moveCursor_frame (s s' : appState) (dy dx : Z) :
  moveCursor s dy dx = Some s' -> same_frame s s'.
Proof.
  unfold moveCursor. intros Hmove.
  set (s1 := if negb (dy =? 0)
             then if (add (currentLine s) dy >=? 0)
                     && (add (currentLine s) dy <? llen (lines s))
                  then set_currentLine (add (currentLine s) dy) s else s
             else s) in *.
  assert (H1 : same_frame s s1) by (subst s1; frame_cases).
  destruct (negb (dx =? 0)).
  - destruct (index (lines s1) (currentLine s1)) as [text |];
      cbn [bind] in Hmove; [| discriminate].
    destruct ((add (currentCol s1) dx >=? 0)
              && (add (currentCol s1) dx <=? len text));
      injection Hmove as <-; [| exact H1].
    eapply same_frame_trans; [exact H1 | apply set_currentCol_frame].
  - injection Hmove as <-. exact H1.
Qed.

Lemma clickAt_frame (h x y : Z) (s s' : appState) :
  clickAt h x y s = Some s' -> same_frame s s'.
Proof.
  unfold clickAt. intros Hclick.
  destruct ((y >=? 1) && (y <? sub h 2));
    [| injection Hclick as <-; apply same_frame_refl].
  destruct (add (startLine s) (sub y 1) <? llen (lines s));
    [| injection Hclick as <-; apply same_frame_refl].
  destruct (index _ _) as [text |]; cbn [bind] in Hclick; [| discriminate].
  destruct (_ >=? 0); injection Hclick as <-;
    [| apply set_currentLine_frame].
  eapply same_frame_trans;
    [apply set_currentLine_frame | apply set_currentCol_frame].
Qed.

Lemma resync_frame (w h : Z) (s s' : appState) :
  resync w h s = Some s' ->
  lines s' = lines s /\ filename s' = filename s
  /\ startCol s' = startCol s /\ currentLine s' = currentLine s
  /\ lastGPress s' = lastGPress s
  /\ screenWidth s' = w /\ screenHeight s' = h.
Proof.
  rewrite resync_eq. cbv zeta.
  destruct (index (lines s) (currentLine s)) as [text |]; cbn [bind];
    [| discriminate].
  intros Hre. injection Hre as <-. repeat split.
Qed.

(** Case analysis on the dispatcher: whatever holds of the outcome of every
    handler holds of the outcome of [handleEvent]. *)
Lemma handleEvent_cases (Q : outcome -> Prop) (h ch : Z) (ev : event)
    (s : appState) :
  Q (Continue s) -> Q (Quit s) ->
  (forall dy dx, Q (continue (moveCursor s dy dx))) ->
  (forall x y, Q (continue (clickAt h x y s))) ->
  Q (Continue (wheelUp s)) -> Q (Continue (wheelDown ch s)) ->
  Q (Continue (pageScrollUp ch s)) -> Q (Continue (pageScrollDown ch s)) ->
  Q (Continue (halfPageUp ch s)) -> Q (Continue (halfPageDown ch s)) ->
  Q (Continue (toggleChordOrJumpTop s)) -> Q (Continue (jumpToBottom s)) ->
  Q (handleEvent h ch ev s).
Proof.
  intros Hid Hquit Hmove Hclick Hwu Hwd Hpu Hpd Hhu Hhd Hg HG.
  destruct ev as [| x y buttons | k r |]; cbn [handleEvent];
    try exact Hid.
  - unfold handleMouse.
    destruct (negb (Z.land buttons WheelUp =? 0)); [exact Hwu |].
    destruct (negb (Z.land buttons WheelDown =? 0)); [exact Hwd |].
    destruct (negb (Z.land buttons Button1 =? 0));
      [apply Hclick | exact Hid].
  - destruct k; cbn [handleKey]; try assumption; try apply Hmove.
    unfold handleRune.
    destruct (Z.eqb_spec r 106) as [-> | ?]; [apply Hmove |].
    destruct (Z.eqb_spec r 107) as [-> | ?]; [apply Hmove |].
    destruct (Z.eqb_spec r 104) as [-> | ?]; [apply Hmove |].
    destruct (Z.eqb_spec r 108) as [-> | ?]; [apply Hmove |].
    destruct (Z.eqb_spec r 113) as [-> | ?]; [exact Hquit |].
    destruct (Z.eqb_spec r 103) as [-> | ?]; [exact Hg |].
    destruct (Z.eqb_spec r 71) as [-> | ?]; [exact HG |].
    replace (match r with
             | 106 => continue (moveCursor s 1 0)
             | 107 => continue (moveCursor s (-1) 0)
             | 104 => continue (moveCursor s 0 (-1))
             | 108 => continue (moveCursor s 0 1)
             | 113 => Quit s
             | 103 => Continue (toggleChordOrJumpTop s)
             | 71 => Continue (jumpToBottom s)
             | _ => Continue s
             end) with (Continue s); [exact Hid |].
    destruct r as [| p | p]; try reflexivity.
    repeat (destruct p as [p | p |]; try reflexivity; try congruence).
Qed.

Lemma handleEvent_frame (h ch : Z) (ev : event) (s s' : appState) :
  final (handleEvent h ch ev s) = Some s' -> same_frame s s'.
Proof.
  apply handleEvent_cases with
    (Q := fun o => final o = Some s' -> same_frame s s');
    try (cbn [final]; intros Ht; injection Ht as <-;
         auto using same_frame_refl, wheelUp_frame, wheelDown_frame,
           pageScrollUp_same_frame, pageScrollDown_same_frame,
           halfPageUp_frame, halfPageDown_frame,
           toggleChordOrJumpTop_frame, jumpToBottom_frame).
  - intros dy dx. destruct (moveCursor s dy dx) as [t |] eqn:Hm;
      cbn [continue final]; [| discriminate].
    intros Ht. injection Ht as <-. eapply moveCursor_frame; eassumption.
  - intros x y. destruct (clickAt h x y s) as [t |] eqn:Hc;
      cbn [continue final]; [| discriminate].
    intros Ht. injection Ht as <-. eapply clickAt_frame; eassumption.
Qed.

(** ** [startCol] *)

Lemma drawUI_state (scr scr' : screen) (s s' : appState) :
  drawUI scr s = Some (scr', s') -> s' = s.
Proof.
  unfold drawUI. intros Hdraw.
  destruct (drawRows _ _ _ _ _ _) as [rows |]; cbn [bind] in Hdraw;
    [| discriminate].
  destruct (if len (statusLine s) >? sub (screenWidth s) 2
            then slice (statusLine s) 0 (sub (screenWidth s) 2)
            else Some (statusLine s)) as [status |];
    cbn [bind] in Hdraw; [| discriminate].
  injection Hdraw as _ <-. reflexivity.
Qed.

(** Induction over the rounds of the loop. *)
Lemma run_invariant (P : appState -> Prop) :
  (forall w h s s', P s -> resync w h s = Some s' -> P s') ->
  (forall h ch ev s s',
      P s -> final (handleEvent h ch ev s) = Some s' -> P s') ->
  forall inputs scr s s',
    P s -> final (snd (run inputs scr s)) = Some s' -> P s'.
Proof.
  intros Hresync Hevent inputs.
  induction inputs as [| [[w h] ev] rest IH]; intros scr s s' HP Hrun.
  - cbn in Hrun. injection Hrun as <-. exact HP.
  - cbn [run] in Hrun. unfold iteration in Hrun.
    destruct (resync w h s) as [s1 |] eqn:Hre; [| discriminate].
    destruct (drawUI scr s1) as [[scr1 s2] |] eqn:Hdraw; [| discriminate].
    apply drawUI_state in Hdraw. subst s2.
    pose proof (Hresync _ _ _ _ HP Hre) as HP1.
    destruct (handleEvent h (sub h 3) ev s1) as [s3 | s3 |] eqn:Hev.
    + apply (IH scr1 s3); [| exact Hrun].
      apply (Hevent h (sub h 3) ev s1); [exact HP1 |].
      rewrite Hev. reflexivity.
    + cbn in Hrun. injection Hrun as <-.
      apply (Hevent h (sub h 3) ev s1); [exact HP1 |].
      rewrite Hev. reflexivity.
    + discriminate.
Qed.

Lemma len_append (a b : string) : len (a ++ b) = len a + len b.
Proof.
  unfold len. induction a as [| c a IH]; cbn [append String.length].
  - lia.
  - rewrite !Nat2Z.inj_succ. lia.
Qed.

(** No piece is longer than the content it was cut from. *)
Lemma split_from_len (acc s : string) :
  Forall (fun l => len l <= len acc + len s) (split_from acc s).
Proof.
  revert acc. induction s as [| c rest IH]; intros acc; cbn [split_from].
  - constructor; [| constructor]. unfold len. cbn. lia.
  - assert (Hc : len (String c rest) = 1 + len rest).
    { unfold len. cbn [String.length]. lia. }
    assert (H0 : 0 <= len rest) by (unfold len; lia).
    destruct (Ascii.eqb c newline).
    + constructor; [lia |].
      eapply Forall_impl; [| apply (IH EmptyString)].
      cbn beta. intros l Hl. assert (0 <= len acc) by (unfold len; lia).
      change (len EmptyString) with 0 in Hl. lia.
    + eapply Forall_impl; [| apply (IH (acc ++ String c EmptyString)%string)].
      cbn beta. intros l Hl. rewrite len_append in Hl.
      change (len (String c EmptyString)) with 1 in Hl. lia.
Qed.

Lemma split_lines_len (content : string) :
  len content <= max_int ->
  Forall (fun l => len l <= max_int) (split_lines content).
Proof.
  intros Hc. eapply Forall_impl; [| apply split_from_len].
  cbn beta. intros l Hl. change (len EmptyString) with 0 in Hl. lia.
Qed.

Lemma lines_fit_index (s : appState) (i : Z) (text : string) :
  lines_fit s -> index (lines s) i = Some text -> is_int (len text).
Proof.
  intros Hfit Hix. apply index_in_range in Hix as [_ Hin].
  unfold lines_fit in Hfit. rewrite Forall_forall in Hfit.
  specialize (Hfit _ Hin). unfold len in *. int_bounds. lia.
Qed.

Lemma moveCursor_currentCol_int (s s' : appState) (dy dx : Z) :
  moveCursor s dy dx = Some s' ->
  is_int (currentCol s) -> is_int (currentCol s').
Proof.
  unfold moveCursor. intros Hmove Hcc.
  set (s1 := if negb (dy =? 0)
             then if (add (currentLine s) dy >=? 0)
                     && (add (currentLine s) dy <? llen (lines s))
                  then set_currentLine (add (currentLine s) dy) s else s
             else s) in *.
  assert (H1 : currentCol s1 = currentCol s).
  { subst s1. destruct (negb (dy =? 0)); [| reflexivity].
    destruct ((add (currentLine s) dy >=? 0)
              && (add (currentLine s) dy <? llen (lines s))); reflexivity. }
  destruct (negb (dx =? 0)).
  - destruct (index (lines s1) (currentLine s1)) as [text |];
      cbn [bind] in Hmove; [| discriminate].
    destruct ((add (currentCol s1) dx >=? 0)
              && (add (currentCol s1) dx <=? len text));
      injection Hmove as <-.
    + apply add_is_int.
    + rewrite H1. exact Hcc.
  - injection Hmove as <-. rewrite H1. exact Hcc.
Qed.

Lemma clickAt_currentCol_int (h x y : Z) (s s' : appState) :
  clickAt h x y s = Some s' -> lines_fit s ->
  is_int (currentCol s) -> is_int (currentCol s').
Proof.
  unfold clickAt. intros Hclick Hfit Hcc.
  destruct ((y >=? 1) && (y <? sub h 2));
    [| injection Hclick as <-; exact Hcc].
  destruct (add (startLine s) (sub y 1) <? llen (lines s));
    [| injection Hclick as <-; exact Hcc].
  cbn [set_currentLine lines startCol] in Hclick.
  destruct (index (lines s) _) as [text |] eqn:Hix; cbn [bind] in Hclick;
    [| discriminate].
  pose proof (lines_fit_index s _ _ Hfit Hix) as Htext.
  pose proof (add_is_int (startCol s) (sub x 1)) as Hraw.
  destruct (_ >=? 0); injection Hclick as <-; [| exact Hcc].
  cbn [set_currentCol currentCol].
  destruct (_ >? _); assumption.
Qed.

Lemma resync_currentCol_int (w h : Z) (s s' : appState) :
  resync w h s = Some s' -> lines_fit s ->
  is_int (currentCol s) -> is_int (currentCol s').
Proof.
  rewrite resync_eq. cbv zeta. intros Hre Hfit Hcc.
  destruct (index (lines s) (currentLine s)) as [text |] eqn:Hix;
    cbn [bind] in Hre; [| discriminate].
  pose proof (lines_fit_index s _ _ Hfit Hix) as Htext.
  injection Hre as <-. cbn [currentCol].
  destruct (_ >? _); assumption.
Qed.

Lemma wheelUp_only_startLine (s : appState) :
  wheelUp s = set_startLine (startLine (wheelUp s)) s.
Proof.
  unfold wheelUp. cbn [set_startLine startLine].
  destruct (_ <? _); destruct s; reflexivity.
Qed.

Lemma wheelDown_only_startLine (ch : Z) (s : appState) :
  wheelDown ch s = set_startLine (startLine (wheelDown ch s)) s.
Proof.
  unfold wheelDown. cbn [set_startLine startLine lines].
  destruct (_ >? _); destruct s; reflexivity.
Qed.

Lemma halfPageUp_only_startLine (ch : Z) (s : appState) :
  halfPageUp ch s = set_startLine (startLine (halfPageUp ch s)) s.
Proof.
  unfold halfPageUp. cbn [set_startLine startLine].
  destruct (_ <? _); destruct s; reflexivity.
Qed.

Lemma halfPageDown_only_startLine (ch : Z) (s : appState) :
  halfPageDown ch s = set_startLine (startLine (halfPageDown ch s)) s.
Proof.
  unfold halfPageDown. cbn [set_startLine startLine lines].
  destruct (_ >? _); destruct s; reflexivity.
Qed.

Lemma handleEvent_currentCol_int (h ch : Z) (ev : event) (s s' : appState) :
  lines_fit s -> is_int (currentCol s) ->
  final (handleEvent h ch ev s) = Some s' -> is_int (currentCol s').
Proof.
  intros Hfit Hcc.
  apply handleEvent_cases with
    (Q := fun o => final o = Some s' -> is_int (currentCol s'));
    try (cbn [final]; intros Ht; injection Ht as <-; try exact Hcc).
  - intros dy dx. destruct (moveCursor s dy dx) as [t |] eqn:Hm;
      cbn [continue final]; [| discriminate].
    intros Ht. injection Ht as <-.
    eapply moveCursor_currentCol_int; eassumption.
  - intros x y. destruct (clickAt h x y s) as [t |] eqn:Hc;
      cbn [continue final]; [| discriminate].
    intros Ht. injection Ht as <-.
    eapply clickAt_currentCol_int; eassumption.
  - rewrite wheelUp_only_startLine. exact Hcc.
  - rewrite wheelDown_only_startLine. exact Hcc.
  - rewrite pageScrollUp_frame. exact Hcc.
  - rewrite pageScrollDown_frame. exact Hcc.
  - rewrite halfPageUp_only_startLine. exact Hcc.
  - rewrite halfPageDown_only_startLine. exact Hcc.
  - unfold toggleChordOrJumpTop. destruct (lastGPress s); exact Hcc.
Qed.

(** C10. [startCol] is 0 throughout: the initial state has it 0, and
    neither the top of the loop, nor [drawUI], nor the handler of any event
    writes to it.  So in every state the loop reaches the viewport starts
    at column 0, and the column [drawUI] computes for the cursor,
    [currentCol - startCol], is [currentCol] itself. *)
Theorem startCol_never_written :
  (forall name content, startCol (initialState name content) = 0)
  /\ (forall w h s s', resync w h s = Some s' -> startCol s' = startCol s)
  /\ (forall scr s scr' s', drawUI scr s = Some (scr', s') -> s' = s)
  /\ (forall h ch ev s s',
         final (handleEvent h ch ev s) = Some s' ->
         startCol s' = startCol s)
  /\ (forall name content inputs scr s,
         final (snd (run inputs scr (initialState name content))) = Some s ->
         startCol s = 0
         /\ (len content <= max_int ->
             sub (currentCol s) (startCol s) = currentCol s)).
Proof.
  split; [reflexivity |].
  split; [intros w h s s' Hre; apply (resync_frame _ _ _ _ Hre) |].
  split; [intros scr s scr' s'; apply drawUI_state |].
  split; [intros h ch ev s s' Hev; apply (handleEvent_frame _ _ _ _ _ Hev) |].
  intros name content inputs scr s Hrun.
  assert (Hzero : startCol s = 0).
  { revert Hrun.
    apply run_invariant with (P := fun s => startCol s = 0).
    - intros w h t t' Ht Hre.
      rewrite <- Ht. apply (resync_frame _ _ _ _ Hre).
    - intros h ch ev t t' Ht Hev.
      rewrite <- Ht. apply (handleEvent_frame _ _ _ _ _ Hev).
    - reflexivity. }
  split; [exact Hzero |].
  intros Hcontent.
  assert (Hint : lines_fit s /\ is_int (currentCol s)).
  { revert Hrun.
    apply run_invariant
      with (P := fun s => lines_fit s /\ is_int (currentCol s)).
    - intros w h t t' [Hfit Hcc] Hre. split.
      + unfold lines_fit. destruct (resync_frame _ _ _ _ Hre) as [-> _].
        exact Hfit.
      + eapply resync_currentCol_int; eassumption.
    - intros h ch ev t t' [Hfit Hcc] Hev. split.
      + unfold lines_fit.
        destruct (handleEvent_frame _ _ _ _ _ Hev) as [-> _]. exact Hfit.
      + eapply handleEvent_currentCol_int; eassumption.
    - split; [apply split_lines_len; exact Hcontent |].
      cbn. int_bounds. lia. }
  rewrite Hzero. unfold sub. rewrite Z.sub_0_r.
  apply wrap_id. apply Hint.
Qed.

(** ** The viewport row *)

Lemma llen_nonneg {A : Type} (l : list A) : 0 <= llen l.
Proof. unfold llen. lia. Qed.

Lemma quot_half (ch : Z) : 0 <= ch -> 0 <= Z.quot ch 2 <= ch.
Proof.
  intros Hch. rewrite Z.quot_div_nonneg by lia. split.
  - apply Z.div_pos; lia.
  - apply Z.div_le_upper_bound; lia.
Qed.

(** Rewrites every sum and difference that provably stays in range to the
    ideal one. *)
Ltac nowrap :=
  repeat match goal with
    | |- context [add ?a ?b] => rewrite (add_id a b) by (int_bounds; lia)
    | |- context [sub ?a ?b] => rewrite (sub_id a b) by (int_bounds; lia)
    end.

(** The handlers on a screen of height [h], at least three rows, in a state
    that satisfies invariants 1 and 3 against it. *)
Section Handlers.

Variables (h : Z) (s : appState).

Hypothesis Hh : 3 <= h.
Hypothesis Hfit : llen (lines s) + h <= max_int.
Hypothesis Hok : view_ok h s.

Ltac view_start :=
  pose proof (llen_nonneg (lines s)) as Hl;
  pose proof Hh as Hh'; pose proof Hfit as Hfit'; pose proof Hok as Hok';
  unfold view_ok, inv1 in *.

Ltac view_done :=
  bool_cases; cbn [set_startLine startLine lines currentLine]; lia.

Lemma wheelUp_view_ok : view_ok h (wheelUp s).
Proof.
  view_start. unfold wheelUp.
  cbn [set_startLine startLine]. nowrap. view_done.
Qed.

Lemma wheelDown_view_ok : view_ok h (wheelDown (sub h 3) s).
Proof.
  view_start. unfold wheelDown.
  cbn [set_startLine startLine lines]. nowrap. view_done.
Qed.

Lemma pageScrollUp_view_ok : view_ok h (pageScrollUp (sub h 3) s).
Proof.
  view_start. unfold pageScrollUp.
  cbn [set_startLine startLine]. nowrap. view_done.
Qed.

Lemma pageScrollDown_view_ok : view_ok h (pageScrollDown (sub h 3) s).
Proof.
  view_start. unfold pageScrollDown.
  cbn [set_startLine startLine lines]. nowrap. view_done.
Qed.

Lemma halfPageUp_view_ok : view_ok h (halfPageUp (sub h 3) s).
Proof.
  view_start. unfold halfPageUp, quot.
  rewrite (sub_id h 3) by (int_bounds; lia).
  pose proof (quot_half (h - 3) ltac:(lia)) as Hq.
  rewrite (wrap_id (Z.quot (h - 3) 2)) by (int_bounds; lia).
  cbn [set_startLine startLine]. nowrap. view_done.
Qed.

Lemma halfPageDown_view_ok : view_ok h (halfPageDown (sub h 3) s).
Proof.
  view_start. unfold halfPageDown, quot.
  rewrite (sub_id h 3) by (int_bounds; lia).
  pose proof (quot_half (h - 3) ltac:(lia)) as Hq.
  rewrite (wrap_id (Z.quot (h - 3) 2)) by (int_bounds; lia).
  cbn [set_startLine startLine lines]. nowrap. view_done.
Qed.

Lemma toggleChordOrJumpTop_view_ok : view_ok h (toggleChordOrJumpTop s).
Proof.
  view_start. unfold toggleChordOrJumpTop.
  destruct (lastGPress s);
    cbn [set_lastGPress set_currentLine startLine lines currentLine]; lia.
Qed.

Lemma jumpToBottom_view_ok : view_ok h (jumpToBottom s).
Proof.
  view_start. unfold jumpToBottom.
  cbn [set_lastGPress set_currentLine startLine lines currentLine].
  nowrap. lia.
Qed.

(** [moveCursor] does not panic and keeps the cursor in the document,
    whatever the step. *)
Lemma moveCursor_view_ok (dy dx : Z) :
  exists s', moveCursor s dy dx = Some s' /\ view_ok h s'.
Proof.
  unfold moveCursor.
  set (s1 := if negb (dy =? 0)
             then if (add (currentLine s) dy >=? 0)
                     && (add (currentLine s) dy <? llen (lines s))
                  then set_currentLine (add (currentLine s) dy) s else s
             else s).
  assert (H1 : view_ok h s1).
  { subst s1. destruct (negb (dy =? 0)); [| exact Hok].
    view_start.
    bool_cases; cbn [andb set_currentLine startLine lines currentLine]; lia. }
  destruct (negb (dx =? 0)); [| exists s1; split; [reflexivity | exact H1]].
  destruct (index_some (lines s1) (currentLine s1) (proj1 H1))
    as [text [-> _]]. cbn [bind].
  destruct ((add (currentCol s1) dx >=? 0)
            && (add (currentCol s1) dx <=? len text));
    eexists; (split; [reflexivity |]); exact H1.
Qed.

(** A click does not panic and lands on a line of the document. *)
Lemma clickAt_view_ok (x y : Z) :
  exists s', clickAt h x y s = Some s' /\ view_ok h s'.
Proof.
  unfold clickAt.
  pose proof (llen_nonneg (lines s)) as Hl.
  rewrite (sub_id h 2) by (int_bounds; lia).
  rewrite Z.geb_leb.
  destruct (Z.leb_spec 1 y) as [Hy1 | ?];
    [| exists s; split; [reflexivity | exact Hok]].
  destruct (Z.ltb_spec y (h - 2)) as [Hy2 | ?];
    [| exists s; split; [reflexivity | exact Hok]].
  cbn [andb].
  rewrite (sub_id y 1) by (int_bounds; lia).
  assert (Hsl : 0 <= startLine s <= llen (lines s))
    by (pose proof Hok as Hok'; unfold view_ok in Hok'; lia).
  rewrite (add_id (startLine s)) by (int_bounds; lia).
  destruct (Z.ltb_spec (startLine s + (y - 1)) (llen (lines s)))
    as [Hdoc | ?]; [| exists s; split; [reflexivity | exact Hok]].
  cbn [set_currentLine lines startCol].
  destruct (index_some (lines s) (startLine s + (y - 1)) ltac:(lia))
    as [text [-> _]]. cbn [bind].
  assert (Hnew : view_ok h (set_currentLine (startLine s + (y - 1)) s)).
  { pose proof Hok as Hok'. unfold view_ok, inv1 in *.
    cbn [set_currentLine startLine lines currentLine]. lia. }
  destruct (_ >=? 0); eexists; (split; [reflexivity |]); exact Hnew.
Qed.

(** No handler panics, and every handler keeps invariants 1 and 3. *)
Lemma handleEvent_view_ok (ev : event) :
  exists s',
    final (handleEvent h (sub h 3) ev s) = Some s' /\ view_ok h s'.
Proof.
  apply handleEvent_cases with
    (Q := fun o => exists s', final o = Some s' /\ view_ok h s');
    try (eexists; split; [reflexivity |]).
  - exact Hok.
  - exact Hok.
  - intros dy dx.
    destruct (moveCursor_view_ok dy dx) as [s' [-> Hs']].
    exists s'. split; [reflexivity | exact Hs'].
  - intros x y.
    destruct (clickAt_view_ok x y) as [s' [-> Hs']].
    exists s'. split; [reflexivity | exact Hs'].
  - apply wheelUp_view_ok.
  - apply wheelDown_view_ok.
  - apply pageScrollUp_view_ok.
  - apply pageScrollDown_view_ok.
  - apply halfPageUp_view_ok.
  - apply halfPageDown_view_ok.
  - apply toggleChordOrJumpTop_view_ok.
  - apply jumpToBottom_view_ok.
Qed.

End Handlers.

(** The top of the loop on a screen no higher than the last one. *)
Lemma resync_view_ok (w h H0 : Z) (s : appState) :
  3 <= h <= H0 -> llen (lines s) + H0 <= max_int -> view_ok H0 s ->
  exists s',
    resync w h s = Some s' /\ view_ok h s'
    /\ screenHeight s' = h /\ lines s' = lines s.
Proof.
  intros Hh Hfit Hok. rewrite resync_eq. cbv zeta.
  pose proof (llen_nonneg (lines s)) as Hl.
  unfold view_ok, inv1 in *.
  destruct (index_some (lines s) (currentLine s) (proj1 Hok))
    as [text [-> _]]. cbn [bind].
  eexists. split; [reflexivity |].
  cbn [startLine lines currentLine screenHeight].
  split; [| split; reflexivity].
  rewrite (sub_id h 3) by (int_bounds; lia).
  destruct (Z.ltb_spec (currentLine s) (startLine s)) as [Hup | Hup].
  - rewrite (add_id (currentLine s)) by (int_bounds; lia).
    rewrite Z.geb_leb.
    destruct (Z.leb_spec (currentLine s + (h - 3)) (currentLine s)).
    + nowrap. lia.
    + lia.
  - rewrite (add_id (startLine s)) by (int_bounds; lia).
    rewrite Z.geb_leb.
    destruct (Z.leb_spec (startLine s + (h - 3)) (currentLine s)).
    + nowrap. lia.
    + lia.
Qed.

Lemma view_ok_inv3 (s : appState) :
  view_ok (screenHeight s) s -> inv3 s.
Proof.
  unfold view_ok, inv3, maxStartLine, contentHeight. intros [_ Hsl]. lia.
Qed.

Lemma view_ok_mono (h h' : Z) (s : appState) :
  h' <= h -> view_ok h s -> view_ok h' s.
Proof. unfold view_ok. intros Hle [H1 Hsl]. split; [exact H1 | lia]. Qed.

(** Over a run on a screen that does not grow, invariants 1 and 3 hold
    against the height of the last round played. *)
Lemma run_view_ok (inputs : list (Z * Z * event)) :
  forall (H0 : Z) (scr : screen) (s0 s : appState),
    llen (lines s0) + H0 <= max_int -> view_ok H0 s0 ->
    heights_fall H0 inputs ->
    final (snd (run inputs scr s0)) = Some s ->
    lines s = lines s0
    /\ ((inputs = [] /\ s = s0)
        \/ (inputs <> [] /\ 3 <= screenHeight s <= H0
            /\ view_ok (screenHeight s) s)).
Proof.
  induction inputs as [| [[w h] ev] rest IH];
    intros H0 scr s0 s Hfit Hok Hfall Hrun.
  - cbn in Hrun. injection Hrun as <-. split; [reflexivity | left; split; reflexivity].
  - destruct Hfall as [Hh Hrest].
    cbn [run] in Hrun. unfold iteration in Hrun.
    destruct (resync_view_ok w h H0 s0 Hh Hfit Hok)
      as [s1 [Hre [Hok1 [Hheight1 Hlines1]]]].
    rewrite Hre in Hrun.
    destruct (drawUI scr s1) as [[scr1 s2] |] eqn:Hdraw; [| discriminate].
    apply drawUI_state in Hdraw. subst s2.
    assert (Hfit1 : llen (lines s1) + h <= max_int)
      by (rewrite Hlines1; lia).
    destruct (handleEvent_view_ok h s1 (proj1 Hh) Hfit1 Hok1 ev)
      as [s3 [Hev Hok3]].
    destruct (handleEvent_frame _ _ _ _ _ Hev)
      as [Hlines3 [_ [_ [_ Hheight3]]]].
    rewrite Hheight1 in Hheight3.
    assert (Hhere : lines s3 = lines s0
                    /\ ((w, h, ev) :: rest <> [] /\ 3 <= screenHeight s3 <= H0
                        /\ view_ok (screenHeight s3) s3)).
    { rewrite Hheight3. split; [congruence |].
      split; [discriminate |]. split; [lia | exact Hok3]. }
    destruct (handleEvent h (sub h 3) ev s1) as [t | t |];
      cbn [final] in Hev; [| | discriminate]; injection Hev as ->.
    + assert (Hfit3 : llen (lines s3) + h <= max_int)
        by (rewrite Hlines3, Hlines1; lia).
      destruct (IH h scr1 s3 s Hfit3 Hok3 Hrest Hrun)
        as [Hlines [[_ ->] | [_ [Hheight Hoks]]]].
      * split; [apply Hhere | right; apply Hhere].
      * split; [congruence |]. right.
        split; [discriminate |]. split; [lia | exact Hoks].
    + cbn in Hrun. injection Hrun as <-.
      split; [apply Hhere | right; apply Hhere].
Qed.

(** C1, as the code has it.  On a screen at least three rows high that
    never grows from one round of the loop to the next (a screen of fixed
    size above all), and with [len(Document) + screenHeight] a
    representable [int], every state the loop reaches from the initial
    state of a non-empty document satisfies
    [0 <= startLine <= maxStartLine], and so does the state the next pass
    through the top of the loop produces. *)
Theorem startLine_in_range_on_steady_screen
    (name : string) (doc : list string) (H : Z)
    (inputs : list (Z * Z * event)) (scr : screen) (s : appState) :
  doc <> [] -> llen doc + H <= max_int ->
  heights_fall H inputs ->
  final (snd (run inputs scr (newState name doc))) = Some s ->
  inv3 s
  /\ forall w h,
      3 <= h ->
      h <= match inputs with [] => H | _ => screenHeight s end ->
      exists s', resync w h s = Some s' /\ inv3 s'.
Proof.
  intros Hdoc Hfit Hfall Hrun.
  assert (Hok0 : view_ok H (newState name doc)).
  { unfold view_ok, inv1, llen. cbn.
    destruct doc; [contradiction | cbn [List.length]; lia]. }
  destruct (run_view_ok inputs H scr (newState name doc) s Hfit Hok0
              Hfall Hrun) as [Hlines [[-> ->] | [Hne [Hheight Hok]]]].
  - split.
    + unfold inv3, maxStartLine, contentHeight, llen. cbn. lia.
    + intros w h H3 Hle.
      destruct (resync_view_ok w h H (newState name doc)
                  ltac:(lia) Hfit Hok0) as [s' [Hre [Hok' [Hh' _]]]].
      exists s'. split; [exact Hre |].
      apply view_ok_inv3. rewrite Hh'. exact Hok'.
  - split; [apply view_ok_inv3; exact Hok |].
    intros w h H3 Hle.
    assert (Hle' : h <= screenHeight s)
      by (destruct inputs; [contradiction | exact Hle]).
    destruct (resync_view_ok w h (screenHeight s) s ltac:(lia)
                ltac:(rewrite Hlines; cbn [newState lines]; lia) Hok)
      as [s' [Hre [Hok' [Hh' _]]]].
    exists s'. split; [exact Hre |].
    apply view_ok_inv3. rewrite Hh'. exact Hok'.
Qed.

Lemma startLine_in_range_on_steady_screen_witness :
  inv3 (set_startLine 93 (set_currentLine 99 hundred_lines))
  /\ final (snd (run [(80, 10, EventKey KeyRune 71); (80, 10, EventResize)]
                     blank (newState "f" (repeat "x"%string 100))))
     = Some (set_startLine 93 (set_currentLine 99 hundred_lines)).
Proof.
  assert (Hrun :
    final (snd (run [(80, 10, EventKey KeyRune 71); (80, 10, EventResize)]
                    blank (newState "f" (repeat "x"%string 100))))
    = Some (set_startLine 93 (set_currentLine 99 hundred_lines)))
    by (vm_compute; reflexivity).
  split; [| exact Hrun].
  apply (startLine_in_range_on_steady_screen "f" (repeat "x"%string 100) 10
           [(80, 10, EventKey KeyRune 71); (80, 10, EventResize)] blank).
  - discriminate.
  - unfold llen. rewrite repeat_length. int_bounds. lia.
  - cbn. lia.
  - exact Hrun.
Defined.

(** C1, as the specification words it, fails in two ways.  After ['G'] on
    a two-line file the viewport of a four-row screen starts at line 1;
    when the screen then grows to five rows [maxStartLine] drops to 0 and
    the top of the loop leaves [startLine] at 1.  And on a one-row screen
    ([contentHeight = -2]) [Ctrl-B] moves [startLine] from 3 up to 5,
    above [maxStartLine = 3]. *)
Lemma startLine_bound_counterexample :
  (exists s,
      snd (run [(80, 4, EventKey KeyRune 71);
                (80, 4, EventResize);
                (80, 5, EventResize)] blank two_lines) = Continue s
      /\ startLine s = 1 /\ maxStartLine s = 0 /\ ~ inv3 s)
  /\ (exists s,
         snd (run [(80, 1, EventKey KeyCtrlB 0)] blank one_line) = Continue s
         /\ startLine s = 5 /\ maxStartLine s = 3 /\ ~ inv3 s).
Proof.
  split.
  - eexists. split; [vm_compute; reflexivity |].
    split; [reflexivity |]. split; [reflexivity |].
    unfold inv3. cbn. lia.
  - eexists. split; [vm_compute; reflexivity |].
    split; [reflexivity |]. split; [reflexivity |].
    unfold inv3. cbn. lia.
Qed.

(** ** [drawUI] *)

Lemma slice_some (s : string) (a b : Z) :
  0 <= a <= b -> b <= len s -> exists piece, slice s a b = Some piece.
Proof.
  intros Hab Hb. unfold slice.
  destruct (Z.leb_spec 0 a); [| lia].
  destruct (Z.leb_spec a b); [| lia].
  destruct (Z.leb_spec b (len s)); [| lia].
  eexists. reflexivity.
Qed.

Lemma slice_negative (s : string) (b : Z) : b < 0 -> slice s 0 b = None.
Proof.
  intros Hb. unfold slice. cbn [Z.leb Z.compare andb].
  destruct (Z.leb_spec 0 b); [lia | reflexivity].
Qed.

(** The content loop runs to its end when the screen is at least two
    columns wide. *)
Lemma drawRows_total (s : appState) (w ch : Z) :
  typed s -> 2 <= w -> 0 <= startLine s -> 0 <= startCol s ->
  startLine s + ch <= max_int -> startCol s + w <= max_int ->
  forall (n : nat) (i : Z) (scr : screen),
    0 <= i -> exists scr', drawRows n i w ch s scr = Some scr'.
Proof.
  intros Ht Hw Hsl Hsc Hrows Hcols n.
  pose proof (typed_startLine s Ht) as Hsl'.
  pose proof (typed_startCol s Ht) as Hsc'.
  induction n as [| n IH]; intros i scr Hi; cbn [drawRows].
  - eexists. reflexivity.
  - destruct (Z.ltb_spec i ch) as [Hrow | ?]; [| eexists; reflexivity].
    rewrite (add_id (startLine s) i) by (int_bounds; lia).
    rewrite Z.geb_leb.
    destruct (Z.leb_spec (llen (lines s)) (startLine s + i)) as [? | Hdoc];
      [eexists; reflexivity |].
    destruct (index_some (lines s) (startLine s + i) ltac:(lia))
      as [text [Hix _]].
    rewrite Hix. cbn [bind].
    pose proof (typed_index s _ _ Ht Hix) as Hlen.
    rewrite (sub_id w 2) by (int_bounds; lia).
    rewrite (add_id (startCol s) (w - 2)) by (int_bounds; lia).
    rewrite (add_id i 1) by (int_bounds; lia).
    destruct (Z.ltb_spec (startCol s) (len text)) as [Hin | ?].
    + destruct (slice_some text (startCol s)
                  (if startCol s + (w - 2) >? len text
                   then len text else startCol s + (w - 2)))
        as [piece ->].
      * rewrite Z.gtb_ltb.
        destruct (Z.ltb_spec (len text) (startCol s + (w - 2))); lia.
      * rewrite Z.gtb_ltb.
        destruct (Z.ltb_spec (len text) (startCol s + (w - 2))); lia.
      * cbn [bind]. apply IH. lia.
    + cbn [bind]. apply IH. lia.
Qed.

(** On a screen at least two columns wide [drawUI] draws its frame and
    hands the state back as it received it. *)
Lemma drawUI_total (scr : screen) (s : appState) :
  typed s -> 2 <= screenWidth s -> 0 < screenHeight s ->
  0 <= startLine s -> 0 <= startCol s ->
  startLine s + screenHeight s <= max_int ->
  startCol s + screenWidth s <= max_int ->
  exists scr', drawUI scr s = Some (scr', s).
Proof.
  intros Ht Hw Hh Hsl Hsc Hrows Hcols. unfold drawUI.
  pose proof (typed_screenHeight s Ht) as Hh'.
  pose proof (typed_screenWidth s Ht) as Hw'.
  rewrite (sub_id (screenHeight s) 3) by (int_bounds; lia).
  destruct (drawRows_total s (screenWidth s) (screenHeight s - 3) Ht Hw Hsl
              Hsc ltac:(lia) Hcols
              (Z.to_nat (screenHeight s - 3)) 0
              (drawBorder (Clear scr) (screenWidth s) (screenHeight s))
              ltac:(lia)) as [rows ->].
  cbn [bind].
  rewrite (sub_id (screenWidth s) 2) by (int_bounds; lia).
  rewrite Z.gtb_ltb.
  destruct (Z.ltb_spec (screenWidth s - 2) (len (statusLine s))) as [Hcut | ?].
  - destruct (slice_some (statusLine s) 0 (screenWidth s - 2))
      as [status ->]; [lia | lia |].
    cbn [bind]. eexists. reflexivity.
  - cbn [bind]. eexists. reflexivity.
Qed.

(** On a screen one column wide [drawUI] panics whatever the state: the
    status line is cut at [w - 2 = -1]. *)
Lemma drawUI_one_column (scr : screen) (s : appState) :
  screenWidth s = 1 -> drawUI scr s = None.
Proof.
  intros Hw. unfold drawUI. rewrite Hw.
  destruct (drawRows _ _ _ _ _ _) as [rows |]; cbn [bind]; [| reflexivity].
  change (sub 1 2) with (-1).
  assert (Hlen : 0 <= len (statusLine s)) by (unfold len; lia).
  rewrite Z.gtb_ltb.
  destruct (Z.ltb_spec (-1) (len (statusLine s))); [| lia].
  rewrite slice_negative by lia. reflexivity.
Qed.

(** A content region of no height draws no row. *)
Lemma drawRows_degenerate (s : appState) (w ch : Z) (scr : screen) :
  ch <= 0 -> drawRows (Z.to_nat ch) 0 w ch s scr = Some scr.
Proof.
  intros Hch. replace (Z.to_nat ch) with 0%nat by lia. reflexivity.
Qed.

(** C6, at the failing input.  On a terminal one column wide the first
    frame of a one-line file is never drawn, though the state satisfies
    the invariants: [drawUI] panics on the slice [line[0:-1]], and the loop
    ends in that panic. *)
Theorem drawUI_panics_on_one_column :
  inv1 one_column /\ inv2 one_column /\ inv3 one_column
  /\ startCol one_column = 0
  /\ screenWidth one_column = 1 /\ screenHeight one_column = 24
  /\ drawUI blank one_column = None
  /\ snd (run [(1, 24, EventResize)] blank one_line) = Panic.
Proof.
  split; [unfold inv1; cbn; lia |].
  split; [exists "a"%string; split; [reflexivity | cbn; lia] |].
  split; [unfold inv3; cbn; lia |].
  repeat split; vm_compute; reflexivity.
Qed.

Lemma startCol_never_written_witness :
  final (snd (run [(80, 4, EventKey KeyRune 108);
                   (80, 5, EventMouse 9 2 Button1)] blank two_lines))
  = Some (mkState ["a"; "b"]%string "f"%string 0 0 1 1 80 5 false)
  /\ startCol (mkState ["a"; "b"]%string "f"%string 0 0 1 1 80 5 false) = 0
  /\ sub (currentCol (mkState ["a"; "b"]%string "f"%string 0 0 1 1 80 5 false))
         (startCol (mkState ["a"; "b"]%string "f"%string 0 0 1 1 80 5 false))
     = currentCol (mkState ["a"; "b"]%string "f"%string 0 0 1 1 80 5 false).
Proof.
  assert (Hrun :
    final (snd (run [(80, 4, EventKey KeyRune 108);
                     (80, 5, EventMouse 9 2 Button1)] blank two_lines))
    = Some (mkState ["a"; "b"]%string "f"%string 0 0 1 1 80 5 false))
    by (vm_compute; reflexivity).
  split; [exact Hrun |].
  destruct startCol_never_written as [_ [_ [_ [_ Hreach]]]].
  destruct (Hreach "f"%string ("a" ++ nl ++ "b")%string _ blank _ Hrun)
    as [Hzero Hcol].
  split; [exact Hzero |].
  apply Hcol. cbn. int_bounds. lia.
Defined.

(** * Further properties of the code *)

(** ** Loading, in full *)

Lemma has_newline_append (a b : string) :
  has_newline (a ++ b) = has_newline a || has_newline b.
Proof.
  induction a as [| c a IH]; cbn [append has_newline]; [reflexivity |].
  rewrite IH. apply orb_assoc.
Qed.

Lemma split_from_no_newline (acc s : string) :
  has_newline acc = false ->
  Forall (fun l => has_newline l = false) (split_from acc s).
Proof.
  revert acc. induction s as [| c rest IH]; intros acc Hacc;
    cbn [split_from].
  - constructor; [exact Hacc | constructor].
  - destruct (Ascii.eqb c newline) eqn:Hc.
    + constructor; [exact Hacc | apply IH; reflexivity].
    + apply IH. rewrite has_newline_append, Hacc.
      cbn [has_newline orb]. rewrite Hc. reflexivity.
Qed.

Lemma split_from_length (acc s : string) :
  List.length (split_from acc s) = S (count_newlines s).
Proof.
  revert acc. induction s as [| c rest IH]; intros acc;
    cbn [split_from count_newlines]; [reflexivity |].
  destruct (Ascii.eqb c newline); cbn [List.length]; now rewrite IH.
Qed.

(** X1. Loading loses nothing: the lines joined by the terminator are the
    file's content again, no line holds a terminator, and there is one line
    more than there are terminators in the file. *)
Theorem split_lines_round_trip (content : string) :
  join (split_lines content) = content
  /\ Forall (fun l => has_newline l = false) (split_lines content)
  /\ List.length (split_lines content) = S (count_newlines content).
Proof.
  split; [apply join_split_lines |].
  split; [apply split_from_no_newline; reflexivity |].
  apply split_from_length.
Qed.

(** ** The scroll handlers as clamps *)

Ltac scroll_value :=
  cbn [set_startLine startLine lines]; nowrap; unfold clamp;
  bool_cases; cbn [set_startLine startLine lines]; lia.

(** Where each of the six scroll handlers leaves [startLine]. *)
Lemma scroll_values (h : Z) (s : appState) :
  3 <= h -> llen (lines s) + h <= max_int ->
  0 <= startLine s <= Z.max 0 (llen (lines s) - (h - 3)) ->
  let ch := h - 3 in
  let top := Z.max 0 (llen (lines s) - ch) in
  startLine (wheelUp s) = clamp (startLine s - 3) 0 top
  /\ startLine (wheelDown (sub h 3) s) = clamp (startLine s + 3) 0 top
  /\ startLine (pageScrollUp (sub h 3) s) = clamp (startLine s - ch) 0 top
  /\ startLine (pageScrollDown (sub h 3) s) = clamp (startLine s + ch) 0 top
  /\ startLine (halfPageUp (sub h 3) s)
     = clamp (startLine s - Z.quot ch 2) 0 top
  /\ startLine (halfPageDown (sub h 3) s)
     = clamp (startLine s + Z.quot ch 2) 0 top.
Proof.
  intros Hh Hfit Hsl ch top. subst ch top.
  pose proof (llen_nonneg (lines s)) as Hl.
  pose proof (quot_half (h - 3) ltac:(lia)) as Hq.
  assert (Hquot : quot (sub h 3) 2 = Z.quot (h - 3) 2).
  { unfold quot. rewrite (sub_id h 3) by (int_bounds; lia).
    apply wrap_id. int_bounds. lia. }
  repeat split.
  - unfold wheelUp. scroll_value.
  - unfold wheelDown. scroll_value.
  - unfold pageScrollUp. scroll_value.
  - unfold pageScrollDown. scroll_value.
  - unfold halfPageUp. rewrite Hquot. scroll_value.
  - unfold halfPageDown. rewrite Hquot. scroll_value.
Qed.

(** X2. On a screen at least three rows high, with [startLine] between 0
    and [maxStartLine], every scroll handler sets [startLine] to
    [clamp(startLine + delta, 0, maxStartLine)] and writes nothing else:
    [delta] is -3 and +3 for the wheel, [-contentHeight] and
    [+contentHeight] for [Ctrl-B] and [Ctrl-F], and half of that, rounded
    toward zero, for [Ctrl-U] and [Ctrl-D]. *)
Theorem scroll_handlers_clamp (h : Z) (s : appState) :
  3 <= h -> llen (lines s) + h <= max_int ->
  0 <= startLine s <= Z.max 0 (llen (lines s) - (h - 3)) ->
  let ch := h - 3 in
  let top := Z.max 0 (llen (lines s) - ch) in
  wheelUp s = set_startLine (clamp (startLine s - 3) 0 top) s
  /\ wheelDown (sub h 3) s = set_startLine (clamp (startLine s + 3) 0 top) s
  /\ pageScrollUp (sub h 3) s
     = set_startLine (clamp (startLine s - ch) 0 top) s
  /\ pageScrollDown (sub h 3) s
     = set_startLine (clamp (startLine s + ch) 0 top) s
  /\ halfPageUp (sub h 3) s
     = set_startLine (clamp (startLine s - Z.quot ch 2) 0 top) s
  /\ halfPageDown (sub h 3) s
     = set_startLine (clamp (startLine s + Z.quot ch 2) 0 top) s.
Proof.
  intros Hh Hfit Hsl ch top.
  destruct (scroll_values h s Hh Hfit Hsl)
    as [Hwu [Hwd [Hpu [Hpd [Hhu Hhd]]]]].
  fold ch in Hwu, Hwd, Hpu, Hpd, Hhu, Hhd.
  fold top in Hwu, Hwd, Hpu, Hpd, Hhu, Hhd.
  split; [rewrite wheelUp_only_startLine, Hwu; reflexivity |].
  split; [rewrite wheelDown_only_startLine, Hwd; reflexivity |].
  split; [rewrite pageScrollUp_frame, Hpu; reflexivity |].
  split; [rewrite pageScrollDown_frame, Hpd; reflexivity |].
  split; [rewrite halfPageUp_only_startLine, Hhu; reflexivity |].
  rewrite halfPageDown_only_startLine, Hhd. reflexivity.
Qed.

Lemma scroll_handlers_clamp_witness :
  wheelDown (sub 10 3) (set_startLine 92 hundred_lines)
  = set_startLine 93 (set_startLine 92 hundred_lines)
  /\ pageScrollUp (sub 10 3) (set_startLine 5 hundred_lines)
     = set_startLine 0 (set_startLine 5 hundred_lines)
  /\ halfPageDown (sub 10 3) (set_startLine 5 hundred_lines)
     = set_startLine 8 (set_startLine 5 hundred_lines).
Proof.
  split; [| split].
  - apply (scroll_handlers_clamp 10 (set_startLine 92 hundred_lines));
      unfold llen; cbn; int_bounds; lia.
  - apply (scroll_handlers_clamp 10 (set_startLine 5 hundred_lines));
      unfold llen; cbn; int_bounds; lia.
  - apply (scroll_handlers_clamp 10 (set_startLine 5 hundred_lines));
      unfold llen; cbn; int_bounds; lia.
Defined.

(** ** The loop on any screen *)

Lemma quot_half_any (ch : Z) :
  (0 <= ch -> 0 <= Z.quot ch 2 <= ch) /\ (ch <= 0 -> ch <= Z.quot ch 2 <= 0).
Proof.
  split; intros Hch; [apply quot_half; exact Hch |].
  replace ch with (- (- ch)) at 2 3 by lia.
  rewrite Z.quot_opp_l by lia.
  pose proof (quot_half (- ch) ltac:(lia)). lia.
Qed.

(** The handlers after the top of the loop, on a screen of any height. *)
Section AnyScreen.

Variables (h : Z) (s : appState).

Hypothesis Hh : 1 <= h.
Hypothesis Hfit : llen (lines s) + h + 4 <= max_int.
Hypothesis Htr : tracked h s.

Ltac any_start :=
  pose proof (llen_nonneg (lines s)) as Hl;
  pose proof Hh as Hh'; pose proof Hfit as Hfit'; pose proof Htr as Htr';
  unfold cursor_ok, tracked, inv1 in *.

Ltac any_done :=
  bool_cases; cbn [set_startLine startLine lines currentLine]; lia.

Lemma tracked_cursor_ok : cursor_ok s.
Proof. any_start. lia. Qed.

Lemma wheelUp_cursor_ok : cursor_ok (wheelUp s).
Proof.
  any_start. unfold wheelUp. cbn [set_startLine startLine]. nowrap. any_done.
Qed.

Lemma wheelDown_cursor_ok : cursor_ok (wheelDown (sub h 3) s).
Proof.
  any_start. unfold wheelDown.
  cbn [set_startLine startLine lines]. nowrap. any_done.
Qed.

Lemma pageScrollUp_cursor_ok : cursor_ok (pageScrollUp (sub h 3) s).
Proof.
  any_start. unfold pageScrollUp.
  cbn [set_startLine startLine]. nowrap. any_done.
Qed.

Lemma pageScrollDown_cursor_ok : cursor_ok (pageScrollDown (sub h 3) s).
Proof.
  any_start. unfold pageScrollDown.
  cbn [set_startLine startLine lines]. nowrap. any_done.
Qed.

Lemma quot_contentHeight :
  quot (sub h 3) 2 = Z.quot (h - 3) 2.
Proof.
  any_start. unfold quot. rewrite (sub_id h 3) by (int_bounds; lia).
  destruct (quot_half_any (h - 3)) as [Hpos Hneg].
  apply wrap_id.
  destruct (Z_le_gt_dec 0 (h - 3)); int_bounds; lia.
Qed.

Lemma halfPageUp_cursor_ok : cursor_ok (halfPageUp (sub h 3) s).
Proof.
  unfold halfPageUp. rewrite quot_contentHeight. any_start.
  destruct (quot_half_any (h - 3)) as [Hpos Hneg].
  assert (Hq : -2 <= Z.quot (h - 3) 2 <= Z.max 0 (h - 3))
    by (destruct (Z_le_gt_dec 0 (h - 3)); lia).
  cbn [set_startLine startLine]. nowrap. any_done.
Qed.

Lemma halfPageDown_cursor_ok : cursor_ok (halfPageDown (sub h 3) s).
Proof.
  unfold halfPageDown. rewrite quot_contentHeight. any_start.
  destruct (quot_half_any (h - 3)) as [Hpos Hneg].
  assert (Hq : Z.min 0 (h - 3) <= Z.quot (h - 3) 2 <= Z.max 0 (h - 3))
    by (destruct (Z_le_gt_dec 0 (h - 3)); lia).
  cbn [set_startLine startLine lines]. nowrap. any_done.
Qed.

Lemma toggleChordOrJumpTop_cursor_ok : cursor_ok (toggleChordOrJumpTop s).
Proof.
  any_start. unfold toggleChordOrJumpTop.
  destruct (lastGPress s);
    cbn [set_lastGPress set_currentLine startLine lines currentLine]; lia.
Qed.

Lemma jumpToBottom_cursor_ok : cursor_ok (jumpToBottom s).
Proof.
  any_start. unfold jumpToBottom.
  cbn [set_lastGPress set_currentLine startLine lines currentLine].
  nowrap. lia.
Qed.

Lemma moveCursor_cursor_ok (dy dx : Z) :
  exists s', moveCursor s dy dx = Some s' /\ cursor_ok s'.
Proof.
  unfold moveCursor.
  set (s1 := if negb (dy =? 0)
             then if (add (currentLine s) dy >=? 0)
                     && (add (currentLine s) dy <? llen (lines s))
                  then set_currentLine (add (currentLine s) dy) s else s
             else s).
  assert (H1 : cursor_ok s1).
  { subst s1. destruct (negb (dy =? 0)); [| exact tracked_cursor_ok].
    any_start.
    bool_cases; cbn [andb set_currentLine startLine lines currentLine]; lia. }
  destruct (negb (dx =? 0)); [| exists s1; split; [reflexivity | exact H1]].
  destruct (index_some (lines s1) (currentLine s1) (proj1 H1))
    as [text [-> _]]. cbn [bind].
  destruct ((add (currentCol s1) dx >=? 0)
            && (add (currentCol s1) dx <=? len text));
    eexists; (split; [reflexivity |]); exact H1.
Qed.

Lemma clickAt_cursor_ok (x y : Z) :
  exists s', clickAt h x y s = Some s' /\ cursor_ok s'.
Proof.
  unfold clickAt. any_start.
  rewrite (sub_id h 2) by (int_bounds; lia).
  rewrite Z.geb_leb.
  destruct (Z.leb_spec 1 y) as [Hy1 | ?];
    [| exists s; split; [reflexivity | lia]].
  destruct (Z.ltb_spec y (h - 2)) as [Hy2 | ?];
    [| exists s; split; [reflexivity | lia]].
  cbn [andb].
  rewrite (sub_id y 1) by (int_bounds; lia).
  rewrite (add_id (startLine s)) by (int_bounds; lia).
  destruct (Z.ltb_spec (startLine s + (y - 1)) (llen (lines s)))
    as [Hdoc | ?]; [| exists s; split; [reflexivity | lia]].
  cbn [set_currentLine lines startCol].
  destruct (index_some (lines s) (startLine s + (y - 1)) ltac:(lia))
    as [text [-> _]]. cbn [bind].
  destruct (_ >=? 0); eexists; (split; [reflexivity |]);
    cbn [set_currentCol set_currentLine startLine lines currentLine]; lia.
Qed.

(** No handler panics, and every handler leaves the cursor on a line. *)
Lemma handleEvent_cursor_ok (ev : event) :
  exists s',
    final (handleEvent h (sub h 3) ev s) = Some s' /\ cursor_ok s'.
Proof.
  apply handleEvent_cases with
    (Q := fun o => exists s', final o = Some s' /\ cursor_ok s');
    try (eexists; split; [reflexivity |]).
  - exact tracked_cursor_ok.
  - exact tracked_cursor_ok.
  - intros dy dx.
    destruct (moveCursor_cursor_ok dy dx) as [s' [-> Hs']].
    exists s'. split; [reflexivity | exact Hs'].
  - intros x y.
    destruct (clickAt_cursor_ok x y) as [s' [-> Hs']].
    exists s'. split; [reflexivity | exact Hs'].
  - apply wheelUp_cursor_ok.
  - apply wheelDown_cursor_ok.
  - apply pageScrollUp_cursor_ok.
  - apply pageScrollDown_cursor_ok.
  - apply halfPageUp_cursor_ok.
  - apply halfPageDown_cursor_ok.
  - apply toggleChordOrJumpTop_cursor_ok.
  - apply jumpToBottom_cursor_ok.
Qed.

End AnyScreen.

(** The top of the loop on a screen of any height: it does not panic, it
    leaves the cursor in view when there is a content region, and it
    bounds the column by the length of the cursor's line. *)
Lemma resync_tracked (w h : Z) (s : appState) :
  1 <= h -> llen (lines s) + h + 4 <= max_int -> cursor_ok s ->
  exists s' text,
    index (lines s) (currentLine s) = Some text
    /\ resync w h s = Some s' /\ tracked h s'
    /\ (0 < h - 3 ->
        startLine s' <= currentLine s' < startLine s' + (h - 3))
    /\ currentCol s' = Z.min (currentCol s) (len text).
Proof.
  intros Hh Hfit Hok. rewrite resync_eq. cbv zeta.
  pose proof (llen_nonneg (lines s)) as Hl.
  unfold cursor_ok, tracked, inv1 in *.
  destruct (index_some (lines s) (currentLine s) (proj1 Hok))
    as [text [Hix _]].
  rewrite Hix. cbn [bind].
  eexists. exists text. split; [reflexivity |]. split; [reflexivity |].
  cbn [startLine lines currentLine currentCol].
  rewrite (sub_id h 3) by (int_bounds; lia).
  assert (Hcol : (if currentCol s >? len text then len text
                  else currentCol s) = Z.min (currentCol s) (len text))
    by (bool_cases; lia).
  destruct (Z.ltb_spec (currentLine s) (startLine s)) as [Hup | Hup].
  - rewrite (add_id (currentLine s)) by (int_bounds; lia).
    rewrite Z.geb_leb.
    destruct (Z.leb_spec (currentLine s + (h - 3)) (currentLine s)).
    + nowrap. repeat split; try lia; exact Hcol.
    + repeat split; try lia; exact Hcol.
  - rewrite (add_id (startLine s)) by (int_bounds; lia).
    rewrite Z.geb_leb.
    destruct (Z.leb_spec (startLine s + (h - 3)) (currentLine s)).
    + nowrap. repeat split; try lia; exact Hcol.
    + repeat split; try lia; exact Hcol.
Qed.

Lemma moveCursor_currentCol_nonneg (s s' : appState) (dy dx : Z) :
  moveCursor s dy dx = Some s' ->
  0 <= currentCol s -> 0 <= currentCol s'.
Proof.
  unfold moveCursor. intros Hmove Hcc.
  set (s1 := if negb (dy =? 0)
             then if (add (currentLine s) dy >=? 0)
                     && (add (currentLine s) dy <? llen (lines s))
                  then set_currentLine (add (currentLine s) dy) s else s
             else s) in *.
  assert (H1 : currentCol s1 = currentCol s).
  { subst s1. destruct (negb (dy =? 0)); [| reflexivity].
    destruct ((add (currentLine s) dy >=? 0)
              && (add (currentLine s) dy <? llen (lines s))); reflexivity. }
  destruct (negb (dx =? 0)).
  - destruct (index (lines s1) (currentLine s1)) as [text |];
      cbn [bind] in Hmove; [| discriminate].
    rewrite Z.geb_leb in Hmove.
    destruct (Z.leb_spec 0 (add (currentCol s1) dx));
      cbn [andb] in Hmove.
    + destruct (add (currentCol s1) dx <=? len text);
        injection Hmove as <-; cbn [set_currentCol currentCol]; lia.
    + injection Hmove as <-. lia.
  - injection Hmove as <-. lia.
Qed.

Lemma clickAt_currentCol_nonneg (h x y : Z) (s s' : appState) :
  clickAt h x y s = Some s' ->
  0 <= currentCol s -> 0 <= currentCol s'.
Proof.
  unfold clickAt. intros Hclick Hcc.
  destruct ((y >=? 1) && (y <? sub h 2));
    [| injection Hclick as <-; exact Hcc].
  destruct (add (startLine s) (sub y 1) <? llen (lines s));
    [| injection Hclick as <-; exact Hcc].
  cbn [set_currentLine lines startCol] in Hclick.
  destruct (index (lines s) _) as [text |]; cbn [bind] in Hclick;
    [| discriminate].
  rewrite Z.geb_leb in Hclick.
  destruct (Z.leb_spec 0 (if add (startCol s) (sub x 1) >? len text
                          then len text else add (startCol s) (sub x 1)));
    injection Hclick as <-; cbn [set_currentCol set_currentLine currentCol];
    lia.
Qed.

Lemma handleEvent_currentCol_nonneg (h ch : Z) (ev : event)
    (s s' : appState) :
  0 <= currentCol s ->
  final (handleEvent h ch ev s) = Some s' -> 0 <= currentCol s'.
Proof.
  intros Hcc.
  apply handleEvent_cases with
    (Q := fun o => final o = Some s' -> 0 <= currentCol s');
    try (cbn [final]; intros Ht; injection Ht as <-; try exact Hcc).
  - intros dy dx. destruct (moveCursor s dy dx) as [t |] eqn:Hm;
      cbn [continue final]; [| discriminate].
    intros Ht. injection Ht as <-.
    eapply moveCursor_currentCol_nonneg; eassumption.
  - intros x y. destruct (clickAt h x y s) as [t |] eqn:Hc;
      cbn [continue final]; [| discriminate].
    intros Ht. injection Ht as <-.
    eapply clickAt_currentCol_nonneg; eassumption.
  - rewrite wheelUp_only_startLine. exact Hcc.
  - rewrite wheelDown_only_startLine. exact Hcc.
  - rewrite pageScrollUp_frame. exact Hcc.
  - rewrite pageScrollDown_frame. exact Hcc.
  - rewrite halfPageUp_only_startLine. exact Hcc.
  - rewrite halfPageDown_only_startLine. exact Hcc.
  - unfold toggleChordOrJumpTop. destruct (lastGPress s); exact Hcc.
Qed.

(** One round on a screen at least two columns wide: the top of the loop,
    the drawing and the handler all succeed, and the round keeps [live]. *)
Lemma iteration_live (w h H : Z) (ev : event) (scr : screen) (s : appState) :
  live s -> 2 <= w <= max_int -> 1 <= h <= H ->
  llen (lines s) + H + 4 <= max_int ->
  exists s1 scr1 s',
    resync w h s = Some s1
    /\ tracked h s1 /\ inv2 s1
    /\ (0 < h - 3 -> startLine s1 <= currentLine s1 < startLine s1 + (h - 3))
    /\ startCol s1 = 0
    /\ drawUI scr s1 = Some (scr1, s1)
    /\ iteration w h ev scr s = (scr1, handleEvent h (sub h 3) ev s1)
    /\ final (handleEvent h (sub h 3) ev s1) = Some s'
    /\ live s' /\ lines s' = lines s.
Proof.
  intros [Hok [Hsc [Hcc [Hcci Hlf]]]] Hw Hh Hfit.
  pose proof (llen_nonneg (lines s)) as Hl.
  destruct (resync_tracked w h s ltac:(lia) ltac:(lia) Hok)
    as [s1 [text [Hix [Hre [Htr [Hvis Hcol]]]]]].
  destruct (resync_frame _ _ _ _ Hre)
    as [Hlines1 [_ [Hsc1 [Hcl1 [_ [Hw1 Hh1]]]]]].
  pose proof (resync_currentCol_int _ _ _ _ Hre Hlf Hcci) as Hcci1.
  pose proof (lines_fit_index s _ _ Hlf Hix) as Htext.
  assert (Hlen : 0 <= len text) by (unfold len; lia).
  assert (Hcc1 : 0 <= currentCol s1 <= len text) by lia.
  assert (Htyped : typed s1).
  { pose proof Htr as Htr'. unfold tracked, inv1 in Htr'.
    constructor; unfold is_int in *; rewrite ?Hlines1, ?Hw1, ?Hh1, ?Hsc1,
      ?Hsc; try exact Hlf; try exact Hcci1;
      rewrite ?Hlines1 in Htr'; unfold min_int, max_int in *; try lia.
    unfold lines_fit. rewrite Hlines1. exact Hlf. }
  destruct (drawUI_total scr s1 Htyped) as [scr1 Hdraw].
  { rewrite Hw1. lia. }
  { rewrite Hh1. lia. }
  { unfold tracked in Htr. lia. }
  { rewrite Hsc1, Hsc. lia. }
  { unfold tracked in Htr. rewrite Hh1, Hlines1 in *. lia. }
  { rewrite Hsc1, Hsc, Hw1. lia. }
  destruct (handleEvent_cursor_ok h s1 ltac:(lia)
              ltac:(rewrite Hlines1; lia) Htr ev) as [s' [Hev Hok']].
  destruct (handleEvent_frame _ _ _ _ _ Hev) as [Hlines' [_ [Hsc' _]]].
  exists s1, scr1, s'.
  split; [exact Hre |]. split; [exact Htr |].
  split.
  { exists text. rewrite Hlines1, Hcl1. split; [exact Hix | exact Hcc1]. }
  split; [exact Hvis |].
  split; [congruence |].
  split; [exact Hdraw |].
  split; [unfold iteration; rewrite Hre, Hdraw; reflexivity |].
  split; [exact Hev |].
  split; [| congruence].
  split; [exact Hok' |].
  split; [congruence |].
  assert (Hlf1 : lines_fit s1) by (unfold lines_fit; rewrite Hlines1; exact Hlf).
  split; [eapply handleEvent_currentCol_nonneg; [| exact Hev]; lia |].
  split; [eapply handleEvent_currentCol_int; eassumption |].
  unfold lines_fit. rewrite Hlines', Hlines1. exact Hlf.
Qed.

(** Over any run on screens at least two columns wide the loop does not
    panic and keeps [live]. *)
Lemma run_live (H : Z) (inputs : list (Z * Z * event)) :
  forall (scr : screen) (s : appState),
    live s -> llen (lines s) + H + 4 <= max_int ->
    Forall (screen_fits H) inputs ->
    exists s',
      final (snd (run inputs scr s)) = Some s'
      /\ live s' /\ lines s' = lines s.
Proof.
  induction inputs as [| [[w h] ev] rest IH]; intros scr s Hlive Hfit Hin.
  - exists s. split; [reflexivity | split; [exact Hlive | reflexivity]].
  - inversion Hin as [| ? ? [Hw Hh] Hrest]; subst.
    cbn [fst snd] in Hw, Hh.
    destruct (iteration_live w h H ev scr s Hlive Hw Hh Hfit)
      as [s1 [scr1 [s' [_ [_ [_ [_ [_ [_ [Hit [Hev [Hlive' Hlines']]]]]]]]]]]].
    cbn [run]. rewrite Hit.
    destruct (handleEvent h (sub h 3) ev s1) as [t | t |];
      cbn [final] in Hev; [| | discriminate]; injection Hev as ->.
    + destruct (IH scr1 s' Hlive' ltac:(rewrite Hlines'; exact Hfit) Hrest)
        as [s2 [Hrun [Hlive2 Hlines2]]].
      exists s2. split; [exact Hrun |]. split; [exact Hlive2 | congruence].
    + exists s'. split; [reflexivity |]. split; [exact Hlive' | exact Hlines'].
Qed.

Lemma newState_live (name : string) (doc : list string) :
  doc <> [] -> Forall (fun l => len l <= max_int) doc ->
  live (newState name doc).
Proof.
  intros Hdoc Hfit. unfold live, cursor_ok, inv1, lines_fit, llen. cbn.
  destruct doc; [contradiction |]. cbn [List.length].
  repeat split; try lia; try exact Hfit; int_bounds; lia.
Qed.

(** X3. The loop never panics on a terminal at least two columns wide:
    from the initial state of any non-empty document, whatever the events
    and however the screen is resized, every round returns, and the state
    it ends in has the cursor on a line of the document, [startLine] and
    [currentCol] at or above 0 and [startCol] at 0.  Heights are at least
    1 and bounded by some [H] with [len(lines) + H + 4] a representable
    [int]. *)
Theorem loop_never_panics (name : string) (doc : list string) (H : Z)
    (inputs : list (Z * Z * event)) (scr : screen) :
  doc <> [] -> Forall (fun l => len l <= max_int) doc ->
  llen doc + H + 4 <= max_int ->
  Forall (screen_fits H) inputs ->
  exists s,
    final (snd (run inputs scr (newState name doc))) = Some s
    /\ lines s = doc /\ inv1 s
    /\ 0 <= startLine s /\ startCol s = 0 /\ 0 <= currentCol s.
Proof.
  intros Hdoc Hlf Hfit Hin.
  destruct (run_live H inputs scr (newState name doc)
              (newState_live name doc Hdoc Hlf) Hfit Hin)
    as [s [Hrun [[[H1 Hsl] [Hsc [Hcc _]]] Hlines]]].
  exists s. split; [exact Hrun |]. split; [exact Hlines |].
  split; [exact H1 |]. split; [lia |]. split; [exact Hsc | exact Hcc].
Qed.

Lemma loop_never_panics_witness :
  exists s,
    final (snd (run [(2, 1, EventKey KeyCtrlB 0);
                     (80, 2, EventMouse 0 0 WheelDown);
                     (3, 24, EventKey KeyRune 71);
                     (80, 24, EventMouse 5 2 Button1)]
                    blank (newState "f" ["ab"; "c"]%string)))
    = Some s
    /\ lines s = ["ab"; "c"]%string /\ inv1 s
    /\ 0 <= startLine s /\ startCol s = 0 /\ 0 <= currentCol s.
Proof.
  apply (loop_never_panics "f" ["ab"; "c"]%string 24).
  - discriminate.
  - repeat constructor; cbn; int_bounds; lia.
  - unfold llen. cbn. int_bounds. lia.
  - repeat constructor; cbn; int_bounds; lia.
Defined.

(** X4. Every frame is drawn from a sound state.  In any run on
    terminals at least two columns wide, the state the top of the loop
    hands to [drawUI] has the cursor on a line of the document
    (invariant 1), the column between 0 and the length of that line
    (invariant 2), the cursor's row inside the viewport when the content
    region has a row at all (invariant 4), [startCol = 0] and
    [startLine >= 0]; and [drawUI] draws it without changing it. *)
Theorem every_frame_is_sound (name : string) (doc : list string) (H : Z)
    (inputs : list (Z * Z * event)) (scr scr0 : screen) (s : appState)
    (w h : Z) :
  doc <> [] -> Forall (fun l => len l <= max_int) doc ->
  llen doc + H + 4 <= max_int ->
  Forall (screen_fits H) inputs ->
  final (snd (run inputs scr (newState name doc))) = Some s ->
  2 <= w <= max_int -> 1 <= h <= H ->
  exists s1 scr1,
    resync w h s = Some s1
    /\ drawUI scr0 s1 = Some (scr1, s1)
    /\ inv1 s1 /\ inv2 s1
    /\ (0 < h - 3 -> startLine s1 <= currentLine s1 < startLine s1 + (h - 3))
    /\ startCol s1 = 0 /\ 0 <= startLine s1.
Proof.
  intros Hdoc Hlf Hfit Hin Hrun Hw Hh.
  destruct (run_live H inputs scr (newState name doc)
              (newState_live name doc Hdoc Hlf) Hfit Hin)
    as [s' [Hrun' [Hlive Hlines]]].
  rewrite Hrun in Hrun'. injection Hrun' as <-.
  destruct (iteration_live w h H EventResize scr0 s Hlive Hw Hh
              ltac:(rewrite Hlines; exact Hfit))
    as [s1 [scr1 [_ [Hre [Htr [H2 [Hvis [Hsc [Hdraw _]]]]]]]]].
  exists s1, scr1.
  split; [exact Hre |]. split; [exact Hdraw |].
  split; [apply Htr |]. split; [exact H2 |]. split; [exact Hvis |].
  split; [exact Hsc |]. unfold tracked in Htr. lia.
Qed.

Lemma every_frame_is_sound_witness :
  exists s1 scr1,
    resync 80 5 (mkState ["ab"; "c"]%string "f"%string 0 0 0 2 80 24 false)
    = Some s1
    /\ drawUI blank s1 = Some (scr1, s1)
    /\ inv1 s1 /\ inv2 s1
    /\ (0 < 5 - 3 -> startLine s1 <= currentLine s1 < startLine s1 + (5 - 3))
    /\ startCol s1 = 0 /\ 0 <= startLine s1.
Proof.
  apply (every_frame_is_sound "f" ["ab"; "c"]%string 24
           [(80, 24, EventKey KeyRune 108); (80, 24, EventKey KeyRight 0)]
           blank blank).
  - discriminate.
  - repeat constructor; cbn; int_bounds; lia.
  - unfold llen. cbn. int_bounds. lia.
  - repeat constructor; cbn; int_bounds; lia.
  - vm_compute. reflexivity.
  - int_bounds. lia.
  - lia.
Defined.

(** ** What [drawUI] puts on the screen *)

Lemma fold_left_cursor {A : Type} (f : screen -> A -> screen) (l : list A) :
  (forall scr a, cursor (f scr a) = cursor scr) ->
  forall scr, cursor (fold_left f l scr) = cursor scr.
Proof.
  intros Hf. induction l as [| a l IH]; intros scr; cbn [fold_left].
  - reflexivity.
  - rewrite IH. apply Hf.
Qed.

Lemma drawString_cursor (scr : screen) (x y : Z) (str : string) :
  cursor (drawString scr x y str) = cursor scr.
Proof. unfold drawString. apply fold_left_cursor. reflexivity. Qed.

Lemma drawBorder_cursor (scr : screen) (w h : Z) :
  cursor (drawBorder scr w h) = cursor scr.
Proof.
  unfold drawBorder. rewrite !fold_left_cursor by reflexivity. reflexivity.
Qed.

Lemma drawRows_cursor (s : appState) (w ch : Z) :
  forall (n : nat) (i : Z) (scr scr' : screen),
    drawRows n i w ch s scr = Some scr' -> cursor scr' = cursor scr.
Proof.
  induction n as [| n IH]; intros i scr scr' Hrows; cbn [drawRows] in Hrows.
  - injection Hrows as <-. reflexivity.
  - destruct (i <? ch); [| injection Hrows as <-; reflexivity].
    destruct (_ >=? _); [injection Hrows as <-; reflexivity |].
    destruct (index _ _) as [text |]; cbn [bind] in Hrows; [| discriminate].
    destruct (startCol s <? len text).
    + destruct (slice _ _ _) as [piece |]; cbn [bind] in Hrows;
        [| discriminate].
      rewrite (IH _ _ _ Hrows). apply drawString_cursor.
    + cbn [bind] in Hrows. apply (IH _ _ _ Hrows).
Qed.

(** The cursor [drawUI] leaves: shown or hidden by its last step alone. *)
Lemma drawUI_cursor_eq (scr scr' : screen) (s s' : appState) :
  drawUI scr s = Some (scr', s') ->
  cursor scr'
  = let relY := sub (currentLine s) (startLine s) in
    let relX := sub (currentCol s) (startCol s) in
    if (relY >=? 0) && (relY <? sub (screenHeight s) 3)
       && (relX >=? 0) && (relX <? sub (screenWidth s) 2)
    then Some (add relX 1, add relY 1) else None.
Proof.
  unfold drawUI. intros Hdraw.
  destruct (drawRows _ _ _ _ _ _) as [rows |] eqn:Hrows;
    cbn [bind] in Hdraw; [| discriminate].
  destruct (if len (statusLine s) >? sub (screenWidth s) 2
            then slice (statusLine s) 0 (sub (screenWidth s) 2)
            else Some (statusLine s)) as [status |];
    cbn [bind] in Hdraw; [| discriminate].
  injection Hdraw as <- _. cbv zeta.
  destruct ((sub (currentLine s) (startLine s) >=? 0)
            && (sub (currentLine s) (startLine s) <? sub (screenHeight s) 3)
            && (sub (currentCol s) (startCol s) >=? 0)
            && (sub (currentCol s) (startCol s) <? sub (screenWidth s) 2));
    reflexivity.
Qed.

(** X5. Where the cursor is shown.  When the cursor's row is inside the
    viewport, as the top of the loop leaves it, and the screen is at least
    two columns wide, [drawUI] shows the cursor at screen cell
    [(currentCol + 1, currentLine - startLine + 1)], a cell of the content
    region, exactly when [currentCol < screenWidth - 2]; from column
    [screenWidth - 2] on the cursor is hidden, since nothing scrolls the
    view sideways. *)
Theorem drawUI_shows_cursor (scr : screen) (s : appState) :
  typed s -> 2 <= screenWidth s -> startCol s = 0 -> 0 <= currentCol s ->
  0 <= startLine s <= currentLine s ->
  currentLine s < startLine s + (screenHeight s - 3) ->
  startLine s + screenHeight s <= max_int ->
  exists scr',
    drawUI scr s = Some (scr', s)
    /\ cursor scr'
       = (if currentCol s <? screenWidth s - 2
          then Some (currentCol s + 1, currentLine s - startLine s + 1)
          else None)
    /\ (currentCol s < screenWidth s - 2 ->
        in_content (screenWidth s) (screenHeight s)
          (currentCol s + 1, currentLine s - startLine s + 1, 0)).
Proof.
  intros Ht Hw Hsc Hcc Hsl Hvis Hfit.
  pose proof (typed_screenWidth s Ht) as Hw'.
  pose proof (typed_screenHeight s Ht) as Hh'.
  pose proof (typed_currentLine s Ht) as Hcl'.
  pose proof (typed_currentCol s Ht) as Hcc'.
  destruct (drawUI_total scr s Ht Hw ltac:(lia) ltac:(lia) ltac:(lia) Hfit
              ltac:(rewrite Hsc; int_bounds; lia)) as [scr' Hdraw].
  exists scr'. split; [exact Hdraw |]. split.
  - rewrite (drawUI_cursor_eq _ _ _ _ Hdraw). cbv zeta. rewrite Hsc.
    rewrite (sub_id (currentLine s)) by (int_bounds; lia).
    rewrite (sub_id (currentCol s) 0) by (int_bounds; lia).
    rewrite (sub_id (screenHeight s) 3) by (int_bounds; lia).
    rewrite (sub_id (screenWidth s) 2) by (int_bounds; lia).
    rewrite Z.sub_0_r.
    rewrite (add_id (currentLine s - startLine s) 1) by (int_bounds; lia).
    rewrite !Z.geb_leb.
    destruct (Z.leb_spec 0 (currentLine s - startLine s)); [| lia].
    destruct (Z.ltb_spec (currentLine s - startLine s) (screenHeight s - 3));
      [| lia].
    destruct (Z.leb_spec 0 (currentCol s)); [| lia].
    cbn [andb].
    destruct (Z.ltb_spec (currentCol s) (screenWidth s - 2)); [| reflexivity].
    rewrite add_id by (int_bounds; lia). reflexivity.
  - intros Hin. unfold in_content. cbn [fst snd]. lia.
Qed.

Lemma drawUI_shows_cursor_witness :
  exists scr',
    drawUI blank (mkState ["ab"; "c"]%string "f"%string 0 0 1 1 6 5 false)
    = Some (scr', mkState ["ab"; "c"]%string "f"%string 0 0 1 1 6 5 false)
    /\ cursor scr' = Some (2, 2).
Proof.
  destruct (drawUI_shows_cursor blank
              (mkState ["ab"; "c"]%string "f"%string 0 0 1 1 6 5 false))
    as [scr' [Hdraw [Hcur _]]].
  - prove_typed.
  - cbn. lia.
  - reflexivity.
  - cbn. lia.
  - cbn. lia.
  - cbn. lia.
  - cbn. int_bounds. lia.
  - exists scr'. split; [exact Hdraw | exact Hcur].
Defined.

Lemma rangeFrom_offsets (s : string) :
  forall (i : Z) (skip : nat),
    Forall (fun ic => i <= fst ic < i + len s) (rangeFrom i skip s).
Proof.
  induction s as [| c rest IH]; intros i skip; cbn [rangeFrom].
  - constructor.
  - assert (Hlen : len (String c rest) = 1 + len rest)
      by (unfold len; cbn [String.length]; lia).
    assert (H0 : 0 <= len rest) by (unfold len; lia).
    assert (Hrest : forall k,
               Forall (fun ic => i <= fst ic < i + len (String c rest))
                      (rangeFrom (i + 1) k rest)).
    { intros k. eapply Forall_impl; [| apply (IH (i + 1) k)].
      cbn beta. intros ic Hic. lia. }
    destruct skip as [| k]; [| apply Hrest].
    destruct (decodeRune (String c rest)) as [r width].
    constructor; [cbn [fst]; lia | apply Hrest].
Qed.

Lemma substring_length (s : string) :
  forall a n : nat,
    (a + n <= String.length s)%nat ->
    String.length (String.substring a n s) = n.
Proof.
  induction s as [| c rest IH]; intros a n Hfit; cbn [String.length] in Hfit.
  - destruct a, n; cbn; try reflexivity; lia.
  - destruct a as [| a]; cbn [String.substring].
    + destruct n as [| n]; [reflexivity |].
      cbn [String.length]. f_equal. apply (IH 0%nat n). lia.
    + apply IH. lia.
Qed.

Lemma slice_len (s piece : string) (a b : Z) :
  slice s a b = Some piece -> 0 <= a <= b /\ b <= len s /\ len piece = b - a.
Proof.
  unfold slice. intros Hs.
  destruct (Z.leb_spec 0 a); [| discriminate].
  destruct (Z.leb_spec a b); [| discriminate].
  destruct (Z.leb_spec b (len s)); [| discriminate].
  cbn [andb] in Hs. injection Hs as <-.
  split; [lia |]. split; [lia |].
  unfold len in *. rewrite substring_length; lia.
Qed.

Lemma fold_left_cells {A : Type} (P : Z * Z * Z -> Prop) (Q : A -> Prop)
    (f : screen -> A -> screen) (l : list A) :
  (forall scr a, Q a -> Forall P (cells scr) -> Forall P (cells (f scr a))) ->
  Forall Q l ->
  forall scr, Forall P (cells scr) -> Forall P (cells (fold_left f l scr)).
Proof.
  intros Hf Hl. induction Hl as [| a l Ha Hl IH]; intros scr Hscr;
    cbn [fold_left].
  - exact Hscr.
  - apply IH. apply Hf; assumption.
Qed.

Lemma SetContent_cells (P : Z * Z * Z -> Prop) (x y r : Z) (scr : screen) :
  P (x, y, r) -> Forall P (cells scr) -> Forall P (cells (SetContent x y r scr)).
Proof. intros Hp Hscr. cbn. constructor; assumption. Qed.

(** [drawString] writes one cell per code point, at the byte offset of the
    code point to the right of [x]. *)
Lemma drawString_cells (P : Z * Z * Z -> Prop) (scr : screen) (x y : Z)
    (str : string) :
  (forall k r, 0 <= k < len str -> P (add x k, y, r)) ->
  Forall P (cells scr) -> Forall P (cells (drawString scr x y str)).
Proof.
  intros Hp Hscr. unfold drawString.
  apply fold_left_cells with (Q := fun ic => 0 <= fst ic < 0 + len str).
  - intros scr0 [k r] Hk Hscr0. cbn [fst snd] in *.
    apply SetContent_cells; [apply Hp; lia | exact Hscr0].
  - apply rangeFrom_offsets.
  - exact Hscr.
Qed.

Lemma zrange_bounds (lo hi : Z) : Forall (fun x => lo <= x < hi) (zrange lo hi).
Proof.
  unfold zrange. apply Forall_forall. intros x Hin.
  apply in_map_iff in Hin as [k [<- Hk]]. apply in_seq in Hk. lia.
Qed.

Lemma drawBorder_in_grid (scr : screen) (w h : Z) :
  is_int w -> is_int h -> 1 <= w -> 2 <= h ->
  Forall (in_grid w h) (cells scr) ->
  Forall (in_grid w h) (cells (drawBorder scr w h)).
Proof.
  intros Hw Hh Hw1 Hh2 Hscr. unfold drawBorder.
  rewrite (sub_id w 1) by (int_bounds; lia).
  rewrite (sub_id h 1) by (int_bounds; lia).
  rewrite (sub_id h 2) by (int_bounds; lia).
  apply fold_left_cells with (Q := fun y => 1 <= y < h - 2).
  - intros scr0 y Hy Hscr0.
    repeat apply SetContent_cells; try exact Hscr0;
      unfold in_grid; cbn [fst snd]; lia.
  - apply zrange_bounds.
  - apply fold_left_cells with (Q := fun x => 1 <= x < w - 1).
    + intros scr0 x Hx Hscr0.
      repeat apply SetContent_cells; try exact Hscr0;
        unfold in_grid; cbn [fst snd]; lia.
    + apply zrange_bounds.
    + repeat apply SetContent_cells; try exact Hscr;
        unfold in_grid; cbn [fst snd]; lia.
Qed.

(** Every cell the content loop writes, from row [i] on, satisfies [P] when
    all cells of the content region do. *)
Lemma drawRows_cells (P : Z * Z * Z -> Prop) (s : appState) (w ch : Z) :
  is_int w -> 2 <= w -> is_int ch -> is_int (startCol s) ->
  0 <= startCol s -> startCol s + w <= max_int ->
  (forall x y r, 1 <= x <= w - 2 -> 1 <= y <= ch -> P (x, y, r)) ->
  forall (n : nat) (i : Z) (scr scr' : screen),
    0 <= i -> Forall P (cells scr) ->
    drawRows n i w ch s scr = Some scr' -> Forall P (cells scr').
Proof.
  intros Hw Hw2 Hch Hsci Hsc Hfit Hp n.
  induction n as [| n IH]; intros i scr scr' Hi Hscr Hrows;
    cbn [drawRows] in Hrows.
  - injection Hrows as <-. exact Hscr.
  - destruct (Z.ltb_spec i ch) as [Hrow | ?];
      [| injection Hrows as <-; exact Hscr].
    destruct (_ >=? _); [injection Hrows as <-; exact Hscr |].
    destruct (index _ _) as [text |]; cbn [bind] in Hrows; [| discriminate].
    rewrite (sub_id w 2) in Hrows by (int_bounds; lia).
    rewrite (add_id (startCol s) (w - 2)) in Hrows by (int_bounds; lia).
    rewrite (add_id i 1) in Hrows by (int_bounds; lia).
    rewrite (add_id 1 i) in Hrows by (int_bounds; lia).
    destruct (startCol s <? len text).
    + destruct (slice _ _ _) as [piece |] eqn:Hslice; cbn [bind] in Hrows;
        [| discriminate].
      apply slice_len in Hslice as [Hab [_ Hlen]].
      assert (Hpiece : len piece <= w - 2).
      { rewrite Hlen.
        destruct (startCol s + (w - 2) >? len text) eqn:Hcmp; [| lia].
        rewrite Z.gtb_ltb in Hcmp. apply Z.ltb_lt in Hcmp. lia. }
      refine (IH (i + 1) _ scr' ltac:(lia) _ Hrows).
      apply drawString_cells; [| exact Hscr].
      intros k r Hk. rewrite add_id by (int_bounds; lia).
      apply Hp; lia.
    + cbn [bind] in Hrows.
      exact (IH (i + 1) scr scr' ltac:(lia) Hscr Hrows).
Qed.

(** X6. [drawUI] stays on the screen.  On a screen at least two columns
    wide and two rows high every cell [drawUI] writes, border, text and
    status line alike, has [0 <= x < screenWidth] and
    [0 <= y < screenHeight]; the status line in particular is cut to
    [screenWidth - 2] bytes. *)
Theorem drawUI_stays_on_screen (scr : screen) (s : appState) :
  typed s -> 2 <= screenWidth s -> 2 <= screenHeight s ->
  0 <= startLine s -> 0 <= startCol s ->
  startLine s + screenHeight s <= max_int ->
  startCol s + screenWidth s <= max_int ->
  exists scr',
    drawUI scr s = Some (scr', s)
    /\ Forall (in_grid (screenWidth s) (screenHeight s)) (cells scr').
Proof.
  intros Ht Hw Hh Hsl Hsc Hrows Hcols.
  pose proof (typed_screenWidth s Ht) as Hw'.
  pose proof (typed_screenHeight s Ht) as Hh'.
  pose proof (typed_startCol s Ht) as Hsc'.
  destruct (drawUI_total scr s Ht Hw ltac:(lia) Hsl Hsc Hrows Hcols)
    as [scr' Hdraw].
  exists scr'. split; [exact Hdraw |].
  unfold drawUI in Hdraw.
  destruct (drawRows _ _ _ _ _ _) as [rows |] eqn:Hdr;
    cbn [bind] in Hdraw; [| discriminate].
  assert (Hgrid : Forall (in_grid (screenWidth s) (screenHeight s))
                         (cells rows)).
  { revert Hdr.
    apply drawRows_cells; try assumption; try lia.
    - apply sub_is_int.
    - rewrite (sub_id (screenHeight s) 3) by (int_bounds; lia).
      intros x y r Hx Hy. unfold in_grid. cbn [fst snd]. lia.
    - apply drawBorder_in_grid; try assumption; try lia. constructor. }
  rewrite (sub_id (screenWidth s) 2) in Hdraw by (int_bounds; lia).
  rewrite (sub_id (screenHeight s) 2) in Hdraw by (int_bounds; lia).
  destruct (if len (statusLine s) >? screenWidth s - 2
            then slice (statusLine s) 0 (screenWidth s - 2)
            else Some (statusLine s)) as [status |] eqn:Hstatus;
    cbn [bind] in Hdraw; [| discriminate].
  assert (Hcut : len status <= screenWidth s - 2).
  { rewrite Z.gtb_ltb in Hstatus.
    destruct (Z.ltb_spec (screenWidth s - 2) (len (statusLine s))).
    - apply slice_len in Hstatus. lia.
    - injection Hstatus as <-. lia. }
  assert (Hline : Forall (in_grid (screenWidth s) (screenHeight s))
                    (cells (drawString rows 1 (screenHeight s - 2) status))).
  { apply drawString_cells; [| exact Hgrid].
    intros k r Hk. rewrite add_id by (int_bounds; lia).
    unfold in_grid. cbn [fst snd]. lia. }
  injection Hdraw as <-.
  destruct (_ && _); exact Hline.
Qed.

Lemma drawUI_stays_on_screen_witness :
  exists scr',
    drawUI blank (mkState ["abcdefgh"; "c"]%string "f"%string 0 0 1 1 6 5 false)
    = Some (scr',
            mkState ["abcdefgh"; "c"]%string "f"%string 0 0 1 1 6 5 false)
    /\ Forall (in_grid 6 5) (cells scr').
Proof.
  apply (drawUI_stays_on_screen blank
           (mkState ["abcdefgh"; "c"]%string "f"%string 0 0 1 1 6 5 false)).
  - prove_typed.
  - cbn. lia.
  - cbn. lia.
  - cbn. lia.
  - cbn. lia.
  - cbn. int_bounds. lia.
  - cbn. int_bounds. lia.
Defined.

(** X7. The text never touches the border.  On a screen at least two
    columns wide the content loop of [drawUI] runs to its end and writes
    only cells with [1 <= x <= screenWidth - 2] and
    [1 <= y <= screenHeight - 3], however long the lines are: each line is
    cut to the [screenWidth - 2] bytes that follow [startCol]. *)
Theorem content_stays_inside_border (scr : screen) (s : appState) (w h : Z) :
  typed s -> is_int w -> is_int h -> 2 <= w -> 0 < h ->
  0 <= startLine s -> 0 <= startCol s ->
  startLine s + h <= max_int -> startCol s + w <= max_int ->
  exists rows,
    drawRows (Z.to_nat (sub h 3)) 0 w (sub h 3) s (Clear scr) = Some rows
    /\ Forall (in_content w h) (cells rows).
Proof.
  intros Ht Hw Hh Hw2 Hh0 Hsl Hsc Hrows Hcols.
  rewrite (sub_id h 3) by (int_bounds; lia).
  destruct (drawRows_total s w (h - 3) Ht Hw2 Hsl Hsc ltac:(lia) Hcols
              (Z.to_nat (h - 3)) 0 (Clear scr) ltac:(lia)) as [rows Hdr].
  exists rows. split; [exact Hdr |].
  revert Hdr. apply drawRows_cells; try assumption; try lia.
  - int_bounds. lia.
  - exact (typed_startCol s Ht).
  - intros x y r Hx Hy. unfold in_content. cbn [fst snd]. lia.
  - constructor.
Qed.

Lemma content_stays_inside_border_witness :
  exists rows,
    drawRows (Z.to_nat (sub 5 3)) 0 6 (sub 5 3)
      (mkState ["abcdefgh"; "c"]%string "f"%string 0 0 1 1 6 5 false)
      (Clear blank) = Some rows
    /\ Forall (in_content 6 5) (cells rows).
Proof.
  apply (content_stays_inside_border blank
           (mkState ["abcdefgh"; "c"]%string "f"%string 0 0 1 1 6 5 false) 6 5).
  - prove_typed.
  - int_bounds. lia.
  - int_bounds. lia.
  - lia.
  - lia.
  - cbn. lia.
  - cbn. lia.
  - cbn. int_bounds. lia.
  - cbn. int_bounds. lia.
Defined.

(** ** Leaving the loop *)

Lemma continue_not_quit (m : option appState) (s : appState) :
  continue m <> Quit s.
Proof. destruct m; discriminate. Qed.

Lemma handleRune_other (r : Z) (s : appState) :
  r <> 106 -> r <> 107 -> r <> 104 -> r <> 108 ->
  r <> 113 -> r <> 103 -> r <> 71 ->
  handleRune r s = Continue s.
Proof.
  intros Hj Hk Hh Hl Hq Hg HG. unfold handleRune.
  destruct r as [| p | p]; try reflexivity.
  repeat (destruct p as [p | p |]; try reflexivity; try congruence).
Qed.

(** The rune keys, one by one: only ['q'] ends the loop. *)
Lemma handleRune_spec (r : Z) (s : appState) :
  (r = 113 /\ handleRune r s = Quit s)
  \/ (r <> 113
      /\ (handleRune r s = Continue s
          \/ handleRune r s = Continue (toggleChordOrJumpTop s)
          \/ handleRune r s = Continue (jumpToBottom s)
          \/ exists dy dx, handleRune r s = continue (moveCursor s dy dx))).
Proof.
  destruct (Z.eqb_spec r 113) as [-> | Hq]; [left; split; reflexivity |].
  right. split; [exact Hq |].
  destruct (Z.eqb_spec r 106) as [-> | ?];
    [right; right; right; exists 1, 0; reflexivity |].
  destruct (Z.eqb_spec r 107) as [-> | ?];
    [right; right; right; exists (-1), 0; reflexivity |].
  destruct (Z.eqb_spec r 104) as [-> | ?];
    [right; right; right; exists 0, (-1); reflexivity |].
  destruct (Z.eqb_spec r 108) as [-> | ?];
    [right; right; right; exists 0, 1; reflexivity |].
  destruct (Z.eqb_spec r 103) as [-> | ?]; [right; left; reflexivity |].
  destruct (Z.eqb_spec r 71) as [-> | ?]; [right; right; left; reflexivity |].
  left. apply handleRune_other; assumption.
Qed.

Lemma run_stops_at_quit (inputs rest : list (Z * Z * event)) :
  forall (scr : screen) (s t : appState),
    snd (run inputs scr s) = Quit t ->
    run (inputs ++ rest) scr s = run inputs scr s.
Proof.
  induction inputs as [| [[w h] ev] more IH]; intros scr s t Hquit.
  - cbn in Hquit. discriminate.
  - cbn [run app] in *.
    destruct (iteration w h ev scr s) as [scr1 [s1 | s1 |]];
      [apply (IH scr1 s1 t Hquit) | reflexivity | reflexivity].
Qed.

(** X8. Leaving the loop.  [Escape], [Ctrl-C] and ['q'] end the loop and
    leave the state as it was; no other event ends it; and once the loop
    has ended no later event is read. *)
Theorem only_quit_keys_end_the_loop :
  (forall h ch ev s, is_quit ev -> handleEvent h ch ev s = Quit s)
  /\ (forall h ch ev s s',
         handleEvent h ch ev s = Quit s' -> is_quit ev /\ s' = s)
  /\ (forall inputs rest scr s t,
         snd (run inputs scr s) = Quit t ->
         run (inputs ++ rest) scr s = run inputs scr s).
Proof.
  split; [| split].
  - intros h ch ev s [[r ->] | [[r ->] | ->]]; reflexivity.
  - intros h ch ev s s' Hquit.
    destruct ev as [| x y buttons | k r |]; cbn [handleEvent] in Hquit;
      try discriminate.
    + unfold handleMouse in Hquit.
      destruct (negb (Z.land buttons WheelUp =? 0)); [discriminate |].
      destruct (negb (Z.land buttons WheelDown =? 0)); [discriminate |].
      destruct (negb (Z.land buttons Button1 =? 0)); [| discriminate].
      apply continue_not_quit in Hquit. contradiction.
    + destruct k; cbn [handleKey] in Hquit;
        try discriminate;
        try (apply continue_not_quit in Hquit; contradiction).
      * injection Hquit as <-.
        split; [left; exists r; reflexivity | reflexivity].
      * injection Hquit as <-.
        split; [right; left; exists r; reflexivity | reflexivity].
      * destruct (handleRune_spec r s)
          as [[-> Hr] | [Hne [Hr | [Hr | [Hr | [dy [dx Hr]]]]]]];
          rewrite Hr in Hquit; try discriminate.
        -- injection Hquit as <-.
           split; [right; right; reflexivity | reflexivity].
        -- apply continue_not_quit in Hquit. contradiction.
  - intros inputs rest scr s t. apply run_stops_at_quit.
Qed.

(** ** Jumps and the next frame *)

(** X9. What the jumps show.  On a screen with a content region
    ([screenHeight > 3]) and [startLine] between 0 and [maxStartLine]:
    after ['G'] the next pass through the top of the loop has the cursor on
    the last line and [startLine = maxStartLine], the end of the document
    in the bottom row; after the second ['g'] of the chord it has the
    cursor on line 0 and [startLine = 0]. *)
Theorem jumps_show_the_ends (w h : Z) (s : appState) :
  3 < h -> llen (lines s) + h <= max_int -> inv1 s ->
  0 <= startLine s <= Z.max 0 (llen (lines s) - (h - 3)) ->
  (exists s',
      resync w h (jumpToBottom s) = Some s'
      /\ currentLine s' = llen (lines s) - 1
      /\ startLine s' = Z.max 0 (llen (lines s) - (h - 3))
      /\ lastGPress s' = false)
  /\ (lastGPress s = true ->
      exists s',
        resync w h (toggleChordOrJumpTop s) = Some s'
        /\ currentLine s' = 0 /\ startLine s' = 0
        /\ lastGPress s' = false).
Proof.
  intros Hh Hfit H1 Hsl. unfold inv1 in H1.
  pose proof (llen_nonneg (lines s)) as Hl.
  split.
  - rewrite resync_eq. cbv zeta. unfold jumpToBottom.
    cbn [set_lastGPress set_currentLine lines filename startLine startCol
         currentLine currentCol lastGPress].
    rewrite (sub_id (llen (lines s)) 1) by (int_bounds; lia).
    destruct (index_some (lines s) (llen (lines s) - 1) ltac:(lia))
      as [text [-> _]]. cbn [bind].
    eexists. split; [reflexivity |].
    cbn [currentLine startLine lastGPress].
    split; [reflexivity |]. split; [| reflexivity].
    rewrite (sub_id h 3) by (int_bounds; lia).
    destruct (Z.ltb_spec (llen (lines s) - 1) (startLine s)); [lia |].
    rewrite (add_id (startLine s)) by (int_bounds; lia).
    rewrite Z.geb_leb.
    destruct (Z.leb_spec (startLine s + (h - 3)) (llen (lines s) - 1)).
    + nowrap. lia.
    + lia.
  - intros Hflag. rewrite resync_eq. cbv zeta. unfold toggleChordOrJumpTop.
    rewrite Hflag.
    cbn [set_lastGPress set_currentLine lines filename startLine startCol
         currentLine currentCol lastGPress].
    destruct (index_some (lines s) 0 ltac:(lia)) as [text [-> _]].
    cbn [bind].
    eexists. split; [reflexivity |].
    cbn [currentLine startLine lastGPress].
    split; [reflexivity |]. split; [| reflexivity].
    rewrite (sub_id h 3) by (int_bounds; lia).
    destruct (Z.ltb_spec 0 (startLine s)).
    + rewrite (add_id 0) by (int_bounds; lia).
      rewrite Z.geb_leb. destruct (Z.leb_spec (0 + (h - 3)) 0); lia.
    + rewrite (add_id (startLine s)) by (int_bounds; lia).
      rewrite Z.geb_leb.
      destruct (Z.leb_spec (startLine s + (h - 3)) 0); lia.
Qed.

Lemma jumps_show_the_ends_witness :
  resync 80 10 (jumpToBottom hundred_lines)
  = Some (set_startLine 93 (set_currentLine 99 hundred_lines))
  /\ resync 80 10
       (toggleChordOrJumpTop
          (set_lastGPress true
             (set_startLine 93 (set_currentLine 99 hundred_lines))))
     = Some hundred_lines.
Proof.
  split.
  - destruct (jumps_show_the_ends 80 10 hundred_lines) as [[s' [Hre _]] _].
    + lia.
    + unfold llen. cbn. int_bounds. lia.
    + unfold inv1, llen. cbn. lia.
    + unfold llen. cbn. lia.
    + rewrite Hre. vm_compute in Hre. injection Hre as <-. reflexivity.
  - destruct (jumps_show_the_ends 80 10
                (set_lastGPress true
                   (set_startLine 93 (set_currentLine 99 hundred_lines))))
      as [_ Htop].
    + lia.
    + unfold llen. cbn. int_bounds. lia.
    + unfold inv1, llen. cbn. lia.
    + unfold llen. cbn. lia.
    + destruct (Htop eq_refl) as [s' [Hre _]].
      rewrite Hre. vm_compute in Hre. injection Hre as <-. reflexivity.
Defined.

(** ** Scrolling and the next frame *)




(** ** [moveCursor], any step *)

Lemma moveCursor_inv1 (s : appState) (dy dx : Z) :
  inv1 s -> exists s', moveCursor s dy dx = Some s' /\ inv1 s'.
Proof.
  intros H1. unfold moveCursor.
  set (s1 := if negb (dy =? 0)
             then if (add (currentLine s) dy >=? 0)
                     && (add (currentLine s) dy <? llen (lines s))
                  then set_currentLine (add (currentLine s) dy) s else s
             else s).
  assert (H1' : inv1 s1).
  { subst s1. destruct (negb (dy =? 0)); [| exact H1].
    unfold inv1 in *.
    bool_cases; cbn [andb set_currentLine lines currentLine]; lia. }
  destruct (negb (dx =? 0)); [| exists s1; split; [reflexivity | exact H1']].
  destruct (index_some (lines s1) (currentLine s1) H1') as [text [-> _]].
  cbn [bind].
  destruct ((add (currentCol s1) dx >=? 0)
            && (add (currentCol s1) dx <=? len text));
    eexists; (split; [reflexivity |]); exact H1'.
Qed.

Lemma moveCursor_startLine (s s' : appState) (dy dx : Z) :
  moveCursor s dy dx = Some s' -> startLine s' = startLine s.
Proof.
  unfold moveCursor. intros Hmove.
  set (s1 := if negb (dy =? 0)
             then if (add (currentLine s) dy >=? 0)
                     && (add (currentLine s) dy <? llen (lines s))
                  then set_currentLine (add (currentLine s) dy) s else s
             else s) in *.
  assert (H1 : startLine s1 = startLine s).
  { subst s1. destruct (negb (dy =? 0)); [| reflexivity].
    destruct ((add (currentLine s) dy >=? 0)
              && (add (currentLine s) dy <? llen (lines s))); reflexivity. }
  destruct (negb (dx =? 0)).
  - destruct (index (lines s1) (currentLine s1)) as [text |];
      cbn [bind] in Hmove; [| discriminate].
    destruct ((add (currentCol s1) dx >=? 0)
              && (add (currentCol s1) dx <=? len text));
      injection Hmove as <-; exact H1.
  - injection Hmove as <-. exact H1.
Qed.

(** X11. [moveCursor] cannot leave the document.  From a state with the
    cursor on a line, for steps of any size, it returns without a panic
    with the cursor on a line again; it keeps a column that was at or
    above 0 at or above 0, and it writes nothing but [currentLine] and
    [currentCol]. *)
Theorem moveCursor_stays_in_document (s : appState) (dy dx : Z) :
  inv1 s ->
  exists s',
    moveCursor s dy dx = Some s'
    /\ inv1 s'
    /\ (0 <= currentCol s -> 0 <= currentCol s')
    /\ same_frame s s' /\ startLine s' = startLine s
    /\ lastGPress s' = lastGPress s.
Proof.
  intros H1.
  destruct (moveCursor_inv1 s dy dx H1) as [s' [Hmove H1']].
  exists s'. split; [exact Hmove |]. split; [exact H1' |].
  split; [intros Hcc; eapply moveCursor_currentCol_nonneg; eassumption |].
  split; [eapply moveCursor_frame; eassumption |].
  split; [eapply moveCursor_startLine; eassumption |].
  eapply moveCursor_lastGPress; eassumption.
Qed.

Lemma moveCursor_stays_in_document_witness :
  exists s',
    moveCursor three_lines (2 ^ 63 - 1) (- 7) = Some s' /\ inv1 s'
    /\ (0 <= currentCol three_lines -> 0 <= currentCol s')
    /\ same_frame three_lines s' /\ startLine s' = startLine three_lines
    /\ lastGPress s' = lastGPress three_lines.
Proof.
  apply (moveCursor_stays_in_document three_lines (2 ^ 63 - 1) (- 7)).
  unfold inv1, llen. cbn. lia.
Defined.

(** X12. An accepted move is undone by the opposite move.  When
    [currentLine + dy] lies in the document, [moveCursor(state, dy, 0)]
    followed by [moveCursor(state, -dy, 0)] gives the state back; likewise
    on the column axis when [currentCol + dx] lies in [[0, len(line)]]. *)
Theorem moveCursor_undo (s : appState) (dy dx : Z) (text : string) :
  typed s -> inv1 s -> index (lines s) (currentLine s) = Some text ->
  0 <= currentCol s <= len text ->
  (0 <= currentLine s + dy < llen (lines s) ->
   exists s1, moveCursor s dy 0 = Some s1
              /\ currentLine s1 = currentLine s + dy
              /\ moveCursor s1 (- dy) 0 = Some s)
  /\ (0 <= currentCol s + dx <= len text ->
      exists s1, moveCursor s 0 dx = Some s1
                 /\ currentCol s1 = currentCol s + dx
                 /\ moveCursor s1 0 (- dx) = Some s).
Proof.
  intros Ht H1 Hix Hcc. unfold inv1 in H1.
  pose proof (typed_lines s Ht) as Hll.
  pose proof (typed_index s _ _ Ht Hix) as Hlen.
  split.
  - intros Hin.
    exists (set_currentLine (currentLine s + dy) s).
    assert (Hgo : moveCursor s dy 0
                  = Some (set_currentLine (currentLine s + dy) s)).
    { unfold moveCursor. cbn [Z.eqb negb].
      destruct (Z.eqb_spec dy 0) as [-> | Hdy]; cbn [negb].
      - rewrite Z.add_0_r. destruct s; reflexivity.
      - rewrite add_id by (int_bounds; lia).
        rewrite Z.geb_leb.
        destruct (Z.leb_spec 0 (currentLine s + dy)); [| lia].
        destruct (Z.ltb_spec (currentLine s + dy) (llen (lines s))); [| lia].
        reflexivity. }
    split; [exact Hgo |]. split; [reflexivity |].
    unfold moveCursor. cbn [Z.eqb negb].
    destruct (Z.eqb_spec (- dy) 0) as [Hz | Hdy]; cbn [negb].
    + assert (dy = 0) by lia. subst dy. rewrite Z.add_0_r.
      destruct s; reflexivity.
    + cbn [set_currentLine currentLine lines].
      rewrite add_id by (int_bounds; lia).
      replace (currentLine s + dy + - dy) with (currentLine s) by lia.
      rewrite Z.geb_leb.
      destruct (Z.leb_spec 0 (currentLine s)); [| lia].
      destruct (Z.ltb_spec (currentLine s) (llen (lines s))); [| lia].
      cbn [andb]. destruct s; reflexivity.
  - intros Hin.
    exists (set_currentCol (currentCol s + dx) s).
    assert (Hgo : moveCursor s 0 dx
                  = Some (set_currentCol (currentCol s + dx) s)).
    { unfold moveCursor. cbn [Z.eqb negb].
      destruct (Z.eqb_spec dx 0) as [-> | Hdx]; cbn [negb].
      - rewrite Z.add_0_r. destruct s; reflexivity.
      - rewrite Hix. cbn [bind].
        rewrite add_id by (int_bounds; lia).
        rewrite Z.geb_leb.
        destruct (Z.leb_spec 0 (currentCol s + dx)); [| lia].
        destruct (Z.leb_spec (currentCol s + dx) (len text)); [| lia].
        reflexivity. }
    split; [exact Hgo |]. split; [reflexivity |].
    unfold moveCursor. cbn [Z.eqb negb].
    destruct (Z.eqb_spec (- dx) 0) as [Hz | Hdx]; cbn [negb].
    + assert (dx = 0) by lia. subst dx. rewrite Z.add_0_r.
      destruct s; reflexivity.
    + cbn [set_currentCol currentLine currentCol lines].
      rewrite Hix. cbn [bind].
      rewrite add_id by (int_bounds; lia).
      replace (currentCol s + dx + - dx) with (currentCol s) by lia.
      rewrite Z.geb_leb.
      destruct (Z.leb_spec 0 (currentCol s)); [| lia].
      destruct (Z.leb_spec (currentCol s) (len text)); [| lia].
      cbn [andb]. destruct s; reflexivity.
Qed.

Lemma moveCursor_undo_witness :
  (exists s1, moveCursor three_lines 2 0 = Some s1
              /\ currentLine s1 = currentLine three_lines + 2
              /\ moveCursor s1 (- 2) 0 = Some three_lines)
  /\ (exists s1, moveCursor three_lines 0 1 = Some s1
                 /\ currentCol s1 = currentCol three_lines + 1
                 /\ moveCursor s1 0 (- 1) = Some three_lines).
Proof.
  destruct (moveCursor_undo three_lines 2 1 "a"%string
              three_lines_typed three_lines_inv1 eq_refl)
    as [Hline Hcol].
  - cbn. lia.
  - split; [apply Hline | apply Hcol]; unfold llen; cbn; lia.
Defined.

(** ** The functions no handler calls *)

Lemma moveVertical_in_range (s : appState) (delta : Z) (text' : string) :
  typed s -> is_int delta -> 0 <= currentCol s ->
  0 <= currentLine s + delta < llen (lines s) ->
  index (lines s) (currentLine s + delta) = Some text' ->
  moveVertical s delta
  = Some (set_currentCol
            (if currentCol s <? len text' then currentCol s
             else Z.max 0 (len text' - 1))
            (set_currentLine (currentLine s + delta) s)).
Proof.
  intros Ht Hd Hcc Hin Hix'.
  pose proof (typed_lines s Ht) as Hll.
  pose proof (typed_index s _ _ Ht Hix') as Hlen'.
  unfold moveVertical.
  rewrite add_id by (int_bounds; lia).
  rewrite Z.geb_leb.
  destruct (Z.leb_spec 0 (currentLine s + delta)); [| lia].
  destruct (Z.ltb_spec (currentLine s + delta) (llen (lines s))); [| lia].
  cbn [andb set_currentLine lines currentLine currentCol].
  rewrite Hix'. cbn [bind].
  rewrite (sub_id (len text') 1) by (int_bounds; lia).
  rewrite Z.geb_leb.
  destruct (Z.leb_spec (len text') (currentCol s)) as [Hpast | Hon].
  - destruct (Z.ltb_spec (currentCol s) (len text')); [lia |].
    cbn [set_currentCol currentCol].
    destruct (Z.ltb_spec (len text' - 1) 0).
    + rewrite Z.max_l by lia. destruct s; reflexivity.
    + rewrite Z.max_r by lia. destruct s; reflexivity.
  - destruct (Z.ltb_spec (currentCol s) (len text')); [| lia].
    destruct s; reflexivity.
Qed.

Lemma moveVertical_out_of_range (s : appState) (delta : Z) :
  typed s -> inv1 s -> is_int delta ->
  ~ 0 <= currentLine s + delta < llen (lines s) ->
  moveVertical s delta = Some s.
Proof.
  intros Ht H1 Hd Hout. unfold inv1 in H1.
  pose proof (typed_lines s Ht) as Hll.
  unfold moveVertical.
  destruct (add_cases (currentLine s) delta (typed_currentLine s Ht) Hd)
    as [[Hr ->] | [[Hr ->] | [Hr ->]]];
    bool_cases; cbn [andb]; try reflexivity; int_bounds; lia.
Qed.

(** X13. [moveVertical] and [moveHorizontal] keep the cursor on a
    character.  With the cursor on a line and the column at or above 0,
    neither panics.  [moveVertical] goes to line [currentLine + delta] when
    that is a line of the document, and then pulls a column at or past the
    end of the new line back to its last character (to 0 on an empty
    line); otherwise it changes nothing.  [moveHorizontal] goes to column
    [currentCol + delta] only when that is the offset of a character of the
    line, so it never puts the cursor one past the end as [moveCursor]
    does. *)
Theorem unused_moves_stay_on_characters (s : appState) (delta : Z)
    (text : string) :
  typed s -> inv1 s -> is_int delta ->
  index (lines s) (currentLine s) = Some text -> 0 <= currentCol s ->
  (exists s',
      moveVertical s delta = Some s'
      /\ inv1 s'
      /\ (0 <= currentLine s + delta < llen (lines s) ->
          exists text',
            index (lines s) (currentLine s + delta) = Some text'
            /\ s' = set_currentCol
                      (if currentCol s <? len text' then currentCol s
                       else Z.max 0 (len text' - 1))
                      (set_currentLine (currentLine s + delta) s))
      /\ (~ 0 <= currentLine s + delta < llen (lines s) -> s' = s))
  /\ moveHorizontal s delta
     = Some (if (0 <=? currentCol s + delta)
                && (currentCol s + delta <? len text)
             then set_currentCol (currentCol s + delta) s else s).
Proof.
  intros Ht H1 Hd Hix Hcc.
  pose proof (typed_lines s Ht) as Hll.
  pose proof (typed_currentCol s Ht) as Hcci.
  pose proof (typed_index s _ _ Ht Hix) as Hlen.
  split.
  - destruct (Z_le_dec 0 (currentLine s + delta)) as [Hlo | Hlo];
      [destruct (Z_lt_dec (currentLine s + delta) (llen (lines s)))
         as [Hhi | Hhi] |].
    + destruct (index_some (lines s) (currentLine s + delta) ltac:(lia))
        as [text' [Hix' _]].
      rewrite (moveVertical_in_range s delta text' Ht Hd Hcc ltac:(lia) Hix').
      eexists. split; [reflexivity |].
      split; [unfold inv1; cbn [set_currentCol set_currentLine lines
                                currentLine]; lia |].
      split; [| intros Hout; lia].
      intros _. exists text'. split; [exact Hix' | reflexivity].
    + rewrite (moveVertical_out_of_range s delta Ht H1 Hd ltac:(lia)).
      exists s. split; [reflexivity |]. split; [exact H1 |].
      split; [intros Hin; lia | reflexivity].
    + rewrite (moveVertical_out_of_range s delta Ht H1 Hd ltac:(lia)).
      exists s. split; [reflexivity |]. split; [exact H1 |].
      split; [intros Hin; lia | reflexivity].
  - unfold moveHorizontal.
    destruct (add_cases (currentCol s) delta Hcci Hd)
      as [[Hr Hadd] | [[Hr Hadd] | [Hr Hadd]]]; rewrite Hadd.
    + rewrite Z.geb_leb.
      destruct (Z.leb_spec 0 (currentCol s + delta)); cbn [andb];
        [| reflexivity].
      rewrite Hix. cbn [bind].
      destruct (currentCol s + delta <? len text); reflexivity.
    + rewrite Z.geb_leb.
      destruct (Z.leb_spec 0 (currentCol s + delta - 2 ^ 64));
        [int_bounds; lia |].
      destruct (Z.leb_spec 0 (currentCol s + delta)); [| lia].
      destruct (Z.ltb_spec (currentCol s + delta) (len text));
        [int_bounds; lia |].
      reflexivity.
    + int_bounds. lia.
Qed.

Lemma unused_moves_stay_on_characters_witness :
  moveVertical (mkState ["abcd"; "xy"]%string "f"%string 0 0 0 3 80 24 false) 1
  = Some (mkState ["abcd"; "xy"]%string "f"%string 0 0 1 1 80 24 false)
  /\ moveHorizontal
       (mkState ["abcd"; "xy"]%string "f"%string 0 0 1 1 80 24 false) 1
     = Some (mkState ["abcd"; "xy"]%string "f"%string 0 0 1 1 80 24 false).
Proof.
  split.
  - destruct (unused_moves_stay_on_characters
                (mkState ["abcd"; "xy"]%string "f"%string 0 0 0 3 80 24 false)
                1 "abcd"%string) as [[s' [Hmove _]] _].
    + prove_typed.
    + unfold inv1, llen. cbn. lia.
    + int_bounds. lia.
    + reflexivity.
    + cbn. lia.
    + rewrite Hmove. vm_compute in Hmove. injection Hmove as <-.
      reflexivity.
  - destruct (unused_moves_stay_on_characters
                (mkState ["abcd"; "xy"]%string "f"%string 0 0 1 1 80 24 false)
                1 "xy"%string) as [_ Hmove].
    + prove_typed.
    + unfold inv1, llen. cbn. lia.
    + int_bounds. lia.
    + reflexivity.
    + cbn. lia.
    + exact Hmove.
Defined.

(** X14. [pageDown] and [pageUp] clamp.  With the cursor on a line, a
    count [n >= 0] and [currentLine + n] a representable [int],
    [pageDown] puts the cursor on line [min(currentLine + n, last)] and
    [pageUp] on line [max(currentLine - n, 0)], so both keep it in the
    document and write nothing else; when [pageDown] does not reach the
    last line, [pageUp] by the same count undoes it. *)
Theorem unused_pages_clamp (s : appState) (n : Z) :
  typed s -> inv1 s -> 0 <= n -> currentLine s + n <= max_int ->
  pageDown s n
  = set_currentLine (Z.min (currentLine s + n) (llen (lines s) - 1)) s
  /\ pageUp s n = set_currentLine (Z.max (currentLine s - n) 0) s
  /\ inv1 (pageDown s n) /\ inv1 (pageUp s n)
  /\ (currentLine s + n <= llen (lines s) - 1 ->
      pageUp (pageDown s n) n = s).
Proof.
  intros Ht H1 Hn Hfit. unfold inv1 in *.
  pose proof (typed_lines s Ht) as Hll.
  assert (Hdown : pageDown s n
                  = set_currentLine
                      (Z.min (currentLine s + n) (llen (lines s) - 1)) s).
  { unfold pageDown. nowrap. rewrite Z.geb_leb.
    destruct (Z.leb_spec (llen (lines s)) (currentLine s + n)).
    - rewrite Z.min_r by lia. reflexivity.
    - rewrite Z.min_l by lia. reflexivity. }
  assert (Hup : forall t,
             0 <= currentLine t <= max_int ->
             pageUp t n = set_currentLine (Z.max (currentLine t - n) 0) t).
  { intros t Ht'. unfold pageUp. nowrap.
    destruct (Z.ltb_spec (currentLine t - n) 0).
    - rewrite Z.max_r by lia. reflexivity.
    - rewrite Z.max_l by lia. reflexivity. }
  split; [exact Hdown |].
  split; [apply Hup; int_bounds; lia |].
  split; [rewrite Hdown; cbn [set_currentLine lines currentLine]; lia |].
  split; [rewrite Hup by (int_bounds; lia);
          cbn [set_currentLine lines currentLine]; lia |].
  intros Hroom. rewrite Hdown, Hup;
    cbn [set_currentLine lines currentLine]; [| int_bounds; lia].
  rewrite Z.min_l by lia.
  replace (currentLine s + n - n) with (currentLine s) by lia.
  rewrite Z.max_l by lia. destruct s; reflexivity.
Qed.

Lemma unused_pages_clamp_witness :
  pageDown (set_currentLine 95 hundred_lines) 7
  = set_currentLine 99 (set_currentLine 95 hundred_lines)
  /\ pageUp (set_currentLine 5 hundred_lines) 7
     = set_currentLine 0 (set_currentLine 5 hundred_lines).
Proof.
  split.
  - apply (unused_pages_clamp (set_currentLine 95 hundred_lines) 7).
    + apply (hundred_lines_typed 0 95); int_bounds; lia.
    + unfold inv1, llen. cbn. lia.
    + lia.
    + cbn. int_bounds. lia.
  - apply (unused_pages_clamp (set_currentLine 5 hundred_lines) 7).
    + apply (hundred_lines_typed 0 5); int_bounds; lia.
    + unfold inv1, llen. cbn. lia.
    + lia.
    + cbn. int_bounds. lia.
Defined.

(** ** Text on the screen *)

Lemma rangeFrom_ascii (s : string) :
  forall i : Z, all_ascii s = true -> rangeFrom i 0 s = bytes_from i s.
Proof.
  induction s as [| c rest IH]; intros i Hs; cbn [rangeFrom bytes_from].
  - reflexivity.
  - cbn [all_ascii] in Hs. apply andb_prop in Hs as [Hc Hrest].
    cbn [decodeRune]. rewrite Hc. cbn [Nat.pred].
    rewrite (IH (i + 1) Hrest). reflexivity.
Qed.

Lemma bytes_from_length (s : string) :
  forall i : Z, List.length (bytes_from i s) = String.length s.
Proof.
  induction s as [| c rest IH]; intros i; cbn [bytes_from List.length
                                                String.length];
    [reflexivity | now rewrite IH].
Qed.

Lemma fold_left_SetContent (x y : Z) (l : list (Z * Z)) :
  forall scr,
    cells (fold_left (fun scr ic => SetContent (add x (fst ic)) y (snd ic) scr)
                     l scr)
    = rev (map (fun ic => (add x (fst ic), y, snd ic)) l) ++ cells scr.
Proof.
  induction l as [| ic l IH]; intros scr; cbn [fold_left map rev].
  - reflexivity.
  - rewrite IH. cbn [SetContent cells]. rewrite <- app_assoc. reflexivity.
Qed.

(** X15. Plain text is drawn a byte to a cell.  [drawString] of a string
    of bytes below 128 adds exactly one cell per byte to the screen, byte
    [k] at column [x + k] of row [y], and leaves every cell written before
    as it was; the cursor is not touched. *)
Theorem drawString_ascii (scr : screen) (x y : Z) (str : string) :
  all_ascii str = true ->
  cells (drawString scr x y str)
  = rev (map (fun kb => (add x (fst kb), y, snd kb)) (bytes_from 0 str))
    ++ cells scr
  /\ llen (cells (drawString scr x y str)) = len str + llen (cells scr)
  /\ cursor (drawString scr x y str) = cursor scr.
Proof.
  intros Hascii.
  assert (Hcells : cells (drawString scr x y str)
                   = rev (map (fun kb => (add x (fst kb), y, snd kb))
                              (bytes_from 0 str)) ++ cells scr).
  { unfold drawString, rangeString. rewrite rangeFrom_ascii by exact Hascii.
    apply fold_left_SetContent. }
  split; [exact Hcells |]. split; [| apply drawString_cursor].
  rewrite Hcells. unfold llen, len.
  rewrite length_app, length_rev, length_map, bytes_from_length. lia.
Qed.

Lemma drawString_ascii_witness :
  cells (drawString blank 1 4 "ok")
  = [(2, 4, 107); (1, 4, 111)].
Proof.
  destruct (drawString_ascii blank 1 4 "ok" eq_refl) as [Hcells _].
  rewrite Hcells. reflexivity.
Defined.

(** ** The top of the loop, twice *)

(** X16. The top of the loop is idempotent.  On a screen of any height
    from 1 up, with the cursor on a line, a second pass with the same
    screen size changes nothing the first pass left: a round that handles
    no command (a resize, an unknown key) redraws the same frame. *)
Theorem resync_idempotent (w h : Z) (s : appState) :
  1 <= h -> llen (lines s) + h + 4 <= max_int -> cursor_ok s ->
  exists s1, resync w h s = Some s1 /\ resync w h s1 = Some s1.
Proof.
  intros Hh Hfit [H1 Hsl]. unfold inv1 in H1.
  pose proof (llen_nonneg (lines s)) as Hl.
  destruct (index_some (lines s) (currentLine s) H1) as [text [Hix _]].
  assert (Hlen : 0 <= len text) by (unfold len; lia).
  rewrite resync_eq. cbv zeta. rewrite Hix. cbn [bind].
  rewrite (sub_id h 3) by (int_bounds; lia).
  set (V := if currentLine s >=?
               add (if currentLine s <? startLine s
                    then currentLine s else startLine s) (h - 3)
            then add (sub (currentLine s) (h - 3)) 1
            else if currentLine s <? startLine s
                 then currentLine s else startLine s).
  assert (HV : 0 <= V <= llen (lines s) + 2
               /\ (0 < h - 3 -> V <= currentLine s < V + (h - 3))
               /\ (h - 3 <= 0 -> V = currentLine s - (h - 3) + 1)).
  { subst V.
    destruct (Z.ltb_spec (currentLine s) (startLine s)).
    - rewrite (add_id (currentLine s)) by (int_bounds; lia).
      rewrite Z.geb_leb.
      destruct (Z.leb_spec (currentLine s + (h - 3)) (currentLine s)).
      + nowrap. lia.
      + lia.
    - rewrite (add_id (startLine s)) by (int_bounds; lia).
      rewrite Z.geb_leb.
      destruct (Z.leb_spec (startLine s + (h - 3)) (currentLine s)).
      + nowrap. lia.
      + lia. }
  clearbody V. destruct HV as [HV0 [HVpos HVneg]].
  set (C := if currentCol s >? len text then len text else currentCol s).
  assert (HC : C <= len text) by (subst C; bool_cases; lia).
  clearbody C.
  eexists. split; [reflexivity |].
  rewrite resync_eq. cbv zeta.
  cbn [lines filename startLine startCol currentLine currentCol lastGPress].
  rewrite Hix. cbn [bind].
  rewrite (sub_id h 3) by (int_bounds; lia).
  f_equal. f_equal.
  - destruct (Z.ltb_spec (currentLine s) V).
    + rewrite (add_id (currentLine s)) by (int_bounds; lia).
      rewrite Z.geb_leb.
      destruct (Z.leb_spec (currentLine s + (h - 3)) (currentLine s)).
      * nowrap. lia.
      * lia.
    + rewrite (add_id V) by (int_bounds; lia).
      rewrite Z.geb_leb.
      destruct (Z.leb_spec (V + (h - 3)) (currentLine s)).
      * nowrap. lia.
      * reflexivity.
  - rewrite Z.gtb_ltb.
    destruct (Z.ltb_spec (len text) C); [lia | reflexivity].
Qed.

Lemma resync_idempotent_witness :
  resync 80 2 three_lines = Some (set_screenHeight 2 (set_startLine 2 three_lines))
  /\ resync 80 2 (set_screenHeight 2 (set_startLine 2 three_lines))
     = Some (set_screenHeight 2 (set_startLine 2 three_lines)).
Proof.
  destruct (resync_idempotent 80 2 three_lines) as [s1 [Hfirst Hsecond]].
  - lia.
  - unfold llen. cbn. int_bounds. lia.
  - unfold cursor_ok, inv1, llen. cbn. lia.
  - rewrite Hfirst in *. vm_compute in Hfirst. injection Hfirst as <-.
    split; [reflexivity | exact Hsecond].
Defined.

(** ** The column across lines *)

Lemma moveCursor_line_accepted (s : appState) (dy : Z) :
  llen (lines s) <= max_int ->
  0 <= currentLine s + dy < llen (lines s) ->
  moveCursor s dy 0 = Some (set_currentLine (currentLine s + dy) s).
Proof.
  intros Hll Hin. unfold moveCursor. cbn [Z.eqb negb].
  destruct (Z.eqb_spec dy 0) as [-> | Hdy]; cbn [negb].
  - rewrite Z.add_0_r. destruct s; reflexivity.
  - rewrite add_id by (int_bounds; lia).
    rewrite Z.geb_leb.
    destruct (Z.leb_spec 0 (currentLine s + dy)); [| lia].
    destruct (Z.ltb_spec (currentLine s + dy) (llen (lines s))); [| lia].
    reflexivity.
Qed.

(** X17. The column is not remembered across a shorter line.  After a
    line move that is accepted, the next pass through the top of the loop
    leaves [currentCol = min(currentCol, len(new line))]: moving onto a
    shorter line pulls the cursor back to the end of that line, and nothing
    stores the column it came from. *)
Theorem column_on_a_shorter_line (w h dy : Z) (s : appState)
    (text' : string) :
  cursor_ok s -> 1 <= h -> llen (lines s) + h + 4 <= max_int ->
  0 <= currentLine s + dy < llen (lines s) ->
  index (lines s) (currentLine s + dy) = Some text' ->
  exists s1 s2,
    moveCursor s dy 0 = Some s1
    /\ resync w h s1 = Some s2
    /\ currentLine s2 = currentLine s + dy
    /\ currentCol s2 = Z.min (currentCol s) (len text').
Proof.
  intros [H1 Hsl] Hh Hfit Hin Hix'.
  pose proof (llen_nonneg (lines s)) as Hl.
  exists (set_currentLine (currentLine s + dy) s).
  assert (Hok : cursor_ok (set_currentLine (currentLine s + dy) s)).
  { unfold cursor_ok, inv1.
    cbn [set_currentLine lines currentLine startLine]. lia. }
  destruct (resync_tracked w h (set_currentLine (currentLine s + dy) s)
              Hh Hfit Hok)
    as [s2 [text2 [Hix2 [Hre [_ [_ Hcol]]]]]].
  cbn [set_currentLine lines currentLine currentCol] in Hix2, Hcol.
  rewrite Hix' in Hix2. injection Hix2 as <-.
  exists s2.
  split; [apply moveCursor_line_accepted; [lia | exact Hin] |].
  split; [exact Hre |].
  split; [| exact Hcol].
  destruct (resync_frame _ _ _ _ Hre) as [_ [_ [_ [Hline _]]]].
  exact Hline.
Qed.

Lemma column_on_a_shorter_line_witness :
  exists s1 s2,
    moveCursor (mkState ["abcd"; "xy"]%string "f"%string 0 0 0 4 80 24 false)
      1 0 = Some s1
    /\ resync 80 24 s1 = Some s2
    /\ currentLine s2 = 0 + 1
    /\ currentCol s2 = Z.min 4 (len "xy").
Proof.
  apply (column_on_a_shorter_line 80 24 1
           (mkState ["abcd"; "xy"]%string "f"%string 0 0 0 4 80 24 false)
           "xy"%string).
  - unfold cursor_ok, inv1, llen. cbn. lia.
  - lia.
  - unfold llen. cbn. int_bounds. lia.
  - unfold llen. cbn. lia.
  - reflexivity.
Defined.
